(** * Soundmatch back-end: recommendation engine and Spotify helpers

    A shallow embedding of [Back-end/recommendation_engine.py] and of the
    parts of [Back-end/spotify_api.py] it relies on.  Python dictionaries of
    tracks become records, exceptions become an explicit [Raised] outcome,
    and the calls to Spotify and Last.fm become functions taken as section
    variables, so every theorem holds for whatever the providers answer. *)

From Stdlib Require Import String Ascii.
From Stdlib Require Import ZArith List Bool Permutation Lia.
Import ListNotations.

(** ** Python values used by the helpers *)
Module Py.

(** Outcome of a Python computation that may raise. *)
Inductive exc (A : Type) : Type :=
| Ok (a : A)
| Raised.
Arguments Ok {A} a.
Arguments Raised {A}.

(** [s != ""] as a Python truth value. *)
Definition truthy_str (s : string) : bool := negb (String.eqb s "").

(** [x in xs] for a list or set of strings. *)
Definition mem (x : string) (xs : list string) : bool :=
  existsb (String.eqb x) xs.

(** [xs[:n]] (Python slicing: a negative [n] drops elements from the end). *)
Definition py_take {A} (n : Z) (l : list A) : list A :=
  if (0 <=? n)%Z then firstn (Z.to_nat n) l
  else firstn (length l - Z.to_nat (- n)) l.

(** ** Python [str] values

    A Python [str] (a sequence of code points) is kept as its UTF-8
    encoding, a lone surrogate in its three-byte form.  The encoding is
    injective, so [==], [in] and dictionary keys are equality of encodings;
    [str.lower()] and [str.strip()] decode, act on the code points as
    CPython 3.11 (Unicode 14.0) does, and encode the result. *)

Definition byte_val (c : ascii) : Z := Z.of_nat (nat_of_ascii c).

Definition byte_of (z : Z) : ascii := ascii_of_nat (Z.to_nat z).

Definition is_cont (c : ascii) : bool :=
  (128 <=? byte_val c)%Z && (byte_val c <? 192)%Z.

(** Decoding; a byte that starts no well-formed sequence (no [str] encodes
    to one) stands for itself as [U+DC80..U+DCFF], as [surrogateescape]. *)
Fixpoint utf8_decode (bs : list ascii) : list Z :=
  match bs with
  | [] => []
  | b :: rest =>
      let v := byte_val b in
      if (v <? 128)%Z then v :: utf8_decode rest
      else
        match rest with
        | c1 :: rest1 =>
            if (192 <=? v)%Z && (v <? 224)%Z && is_cont c1 then
              ((v - 192) * 64 + (byte_val c1 - 128))%Z :: utf8_decode rest1
            else
              match rest1 with
              | c2 :: rest2 =>
                  if (224 <=? v)%Z && (v <? 240)%Z && is_cont c1 && is_cont c2 then
                    ((v - 224) * 4096 + (byte_val c1 - 128) * 64
                     + (byte_val c2 - 128))%Z :: utf8_decode rest2
                  else
                    match rest2 with
                    | c3 :: rest3 =>
                        if (240 <=? v)%Z && (v <? 248)%Z && is_cont c1 && is_cont c2
                           && is_cont c3 then
                          ((v - 240) * 262144 + (byte_val c1 - 128) * 4096
                           + (byte_val c2 - 128) * 64 + (byte_val c3 - 128))%Z
                          :: utf8_decode rest3
                        else (0xDC00 + v)%Z :: utf8_decode rest
                    | [] => (0xDC00 + v)%Z :: utf8_decode rest
                    end
              | [] => (0xDC00 + v)%Z :: utf8_decode rest
              end
        | [] => [(0xDC00 + v)%Z]
        end
  end.

Definition utf8_encode_cp (c : Z) : list ascii :=
  if (c <? 0x80)%Z then [byte_of c]
  else if (c <? 0x800)%Z then [byte_of (192 + c / 64); byte_of (128 + c mod 64)]
  else if (c <? 0x10000)%Z then
    [byte_of (224 + c / 4096); byte_of (128 + (c / 64) mod 64); byte_of (128 + c mod 64)]
  else
    [byte_of (240 + c / 262144); byte_of (128 + (c / 4096) mod 64);
     byte_of (128 + (c / 64) mod 64); byte_of (128 + c mod 64)].

Definition utf8_encode (cs : list Z) : string :=
  string_of_list_ascii (flat_map utf8_encode_cp cs).

Definition str_cps (s : string) : list Z := utf8_decode (list_ascii_of_string s).

(** Single code point lower-case mappings of CPython 3.11's [str.lower]
    (Unicode 14.0): a run [(lo, hi, step, delta)] maps every [c] with
    [lo <= c <= hi] and [c - lo] a multiple of [step] ([step = 0]: [c = lo])
    to [c + delta]. *)
Definition lower_runs : list (Z * Z * Z * Z) := [
  (0x41, 0x5A, 1, 0x20); (0xC0, 0xD6, 1, 0x20); (0xD8, 0xDE, 1, 0x20);
  (0x100, 0x12E, 2, 0x1); (0x132, 0x136, 2, 0x1); (0x139, 0x147, 2, 0x1);
  (0x14A, 0x176, 2, 0x1); (0x178, 0x178, 0, -0x79); (0x179, 0x17D, 2, 0x1);
  (0x181, 0x181, 0, 0xD2); (0x182, 0x184, 2, 0x1); (0x186, 0x186, 0, 0xCE);
  (0x187, 0x187, 0, 0x1); (0x189, 0x18A, 1, 0xCD); (0x18B, 0x18B, 0, 0x1);
  (0x18E, 0x18E, 0, 0x4F); (0x18F, 0x18F, 0, 0xCA); (0x190, 0x190, 0, 0xCB);
  (0x191, 0x191, 0, 0x1); (0x193, 0x193, 0, 0xCD); (0x194, 0x194, 0, 0xCF);
  (0x196, 0x196, 0, 0xD3); (0x197, 0x197, 0, 0xD1); (0x198, 0x198, 0, 0x1);
  (0x19C, 0x19C, 0, 0xD3); (0x19D, 0x19D, 0, 0xD5); (0x19F, 0x19F, 0, 0xD6);
  (0x1A0, 0x1A4, 2, 0x1); (0x1A6, 0x1A6, 0, 0xDA); (0x1A7, 0x1A7, 0, 0x1);
  (0x1A9, 0x1A9, 0, 0xDA); (0x1AC, 0x1AC, 0, 0x1); (0x1AE, 0x1AE, 0, 0xDA);
  (0x1AF, 0x1AF, 0, 0x1); (0x1B1, 0x1B2, 1, 0xD9); (0x1B3, 0x1B5, 2, 0x1);
  (0x1B7, 0x1B7, 0, 0xDB); (0x1B8, 0x1B8, 0, 0x1); (0x1BC, 0x1BC, 0, 0x1);
  (0x1C4, 0x1C4, 0, 0x2); (0x1C5, 0x1C5, 0, 0x1); (0x1C7, 0x1C7, 0, 0x2);
  (0x1C8, 0x1C8, 0, 0x1); (0x1CA, 0x1CA, 0, 0x2); (0x1CB, 0x1DB, 2, 0x1);
  (0x1DE, 0x1EE, 2, 0x1); (0x1F1, 0x1F1, 0, 0x2); (0x1F2, 0x1F4, 2, 0x1);
  (0x1F6, 0x1F6, 0, -0x61); (0x1F7, 0x1F7, 0, -0x38); (0x1F8, 0x21E, 2, 0x1);
  (0x220, 0x220, 0, -0x82); (0x222, 0x232, 2, 0x1); (0x23A, 0x23A, 0, 0x2A2B);
  (0x23B, 0x23B, 0, 0x1); (0x23D, 0x23D, 0, -0xA3); (0x23E, 0x23E, 0, 0x2A28);
  (0x241, 0x241, 0, 0x1); (0x243, 0x243, 0, -0xC3); (0x244, 0x244, 0, 0x45);
  (0x245, 0x245, 0, 0x47); (0x246, 0x24E, 2, 0x1); (0x370, 0x372, 2, 0x1);
  (0x376, 0x376, 0, 0x1); (0x37F, 0x37F, 0, 0x74); (0x386, 0x386, 0, 0x26);
  (0x388, 0x38A, 1, 0x25); (0x38C, 0x38C, 0, 0x40); (0x38E, 0x38F, 1, 0x3F);
  (0x391, 0x3A1, 1, 0x20); (0x3A4, 0x3AB, 1, 0x20); (0x3CF, 0x3CF, 0, 0x8);
  (0x3D8, 0x3EE, 2, 0x1); (0x3F4, 0x3F4, 0, -0x3C); (0x3F7, 0x3F7, 0, 0x1);
  (0x3F9, 0x3F9, 0, -0x7); (0x3FA, 0x3FA, 0, 0x1); (0x3FD, 0x3FF, 1, -0x82);
  (0x400, 0x40F, 1, 0x50); (0x410, 0x42F, 1, 0x20); (0x460, 0x480, 2, 0x1);
  (0x48A, 0x4BE, 2, 0x1); (0x4C0, 0x4C0, 0, 0xF); (0x4C1, 0x4CD, 2, 0x1);
  (0x4D0, 0x52E, 2, 0x1); (0x531, 0x556, 1, 0x30); (0x10A0, 0x10C5, 1, 0x1C60);
  (0x10C7, 0x10C7, 0, 0x1C60); (0x10CD, 0x10CD, 0, 0x1C60); (0x13A0, 0x13EF, 1, 0x97D0);
  (0x13F0, 0x13F5, 1, 0x8); (0x1C90, 0x1CBA, 1, -0xBC0); (0x1CBD, 0x1CBF, 1, -0xBC0);
  (0x1E00, 0x1E94, 2, 0x1); (0x1E9E, 0x1E9E, 0, -0x1DBF); (0x1EA0, 0x1EFE, 2, 0x1);
  (0x1F08, 0x1F0F, 1, -0x8); (0x1F18, 0x1F1D, 1, -0x8); (0x1F28, 0x1F2F, 1, -0x8);
  (0x1F38, 0x1F3F, 1, -0x8); (0x1F48, 0x1F4D, 1, -0x8); (0x1F59, 0x1F5F, 2, -0x8);
  (0x1F68, 0x1F6F, 1, -0x8); (0x1F88, 0x1F8F, 1, -0x8); (0x1F98, 0x1F9F, 1, -0x8);
  (0x1FA8, 0x1FAF, 1, -0x8); (0x1FB8, 0x1FB9, 1, -0x8); (0x1FBA, 0x1FBB, 1, -0x4A);
  (0x1FBC, 0x1FBC, 0, -0x9); (0x1FC8, 0x1FCB, 1, -0x56); (0x1FCC, 0x1FCC, 0, -0x9);
  (0x1FD8, 0x1FD9, 1, -0x8); (0x1FDA, 0x1FDB, 1, -0x64); (0x1FE8, 0x1FE9, 1, -0x8);
  (0x1FEA, 0x1FEB, 1, -0x70); (0x1FEC, 0x1FEC, 0, -0x7); (0x1FF8, 0x1FF9, 1, -0x80);
  (0x1FFA, 0x1FFB, 1, -0x7E); (0x1FFC, 0x1FFC, 0, -0x9); (0x2126, 0x2126, 0, -0x1D5D);
  (0x212A, 0x212A, 0, -0x20BF); (0x212B, 0x212B, 0, -0x2046); (0x2132, 0x2132, 0, 0x1C);
  (0x2160, 0x216F, 1, 0x10); (0x2183, 0x2183, 0, 0x1); (0x24B6, 0x24CF, 1, 0x1A);
  (0x2C00, 0x2C2F, 1, 0x30); (0x2C60, 0x2C60, 0, 0x1); (0x2C62, 0x2C62, 0, -0x29F7);
  (0x2C63, 0x2C63, 0, -0xEE6); (0x2C64, 0x2C64, 0, -0x29E7); (0x2C67, 0x2C6B, 2, 0x1);
  (0x2C6D, 0x2C6D, 0, -0x2A1C); (0x2C6E, 0x2C6E, 0, -0x29FD); (0x2C6F, 0x2C6F, 0, -0x2A1F);
  (0x2C70, 0x2C70, 0, -0x2A1E); (0x2C72, 0x2C72, 0, 0x1); (0x2C75, 0x2C75, 0, 0x1);
  (0x2C7E, 0x2C7F, 1, -0x2A3F); (0x2C80, 0x2CE2, 2, 0x1); (0x2CEB, 0x2CED, 2, 0x1);
  (0x2CF2, 0x2CF2, 0, 0x1); (0xA640, 0xA66C, 2, 0x1); (0xA680, 0xA69A, 2, 0x1);
  (0xA722, 0xA72E, 2, 0x1); (0xA732, 0xA76E, 2, 0x1); (0xA779, 0xA77B, 2, 0x1);
  (0xA77D, 0xA77D, 0, -0x8A04); (0xA77E, 0xA786, 2, 0x1); (0xA78B, 0xA78B, 0, 0x1);
  (0xA78D, 0xA78D, 0, -0xA528); (0xA790, 0xA792, 2, 0x1); (0xA796, 0xA7A8, 2, 0x1);
  (0xA7AA, 0xA7AA, 0, -0xA544); (0xA7AB, 0xA7AB, 0, -0xA54F); (0xA7AC, 0xA7AC, 0, -0xA54B);
  (0xA7AD, 0xA7AD, 0, -0xA541); (0xA7AE, 0xA7AE, 0, -0xA544); (0xA7B0, 0xA7B0, 0, -0xA512);
  (0xA7B1, 0xA7B1, 0, -0xA52A); (0xA7B2, 0xA7B2, 0, -0xA515); (0xA7B3, 0xA7B3, 0, 0x3A0);
  (0xA7B4, 0xA7C2, 2, 0x1); (0xA7C4, 0xA7C4, 0, -0x30); (0xA7C5, 0xA7C5, 0, -0xA543);
  (0xA7C6, 0xA7C6, 0, -0x8A38); (0xA7C7, 0xA7C9, 2, 0x1); (0xA7D0, 0xA7D0, 0, 0x1);
  (0xA7D6, 0xA7D8, 2, 0x1); (0xA7F5, 0xA7F5, 0, 0x1); (0xFF21, 0xFF3A, 1, 0x20);
  (0x10400, 0x10427, 1, 0x28); (0x104B0, 0x104D3, 1, 0x28); (0x10570, 0x1057A, 1, 0x27);
  (0x1057C, 0x1058A, 1, 0x27); (0x1058C, 0x10592, 1, 0x27); (0x10594, 0x10595, 1, 0x27);
  (0x10C80, 0x10CB2, 1, 0x40); (0x118A0, 0x118BF, 1, 0x20); (0x16E40, 0x16E5F, 1, 0x20);
  (0x1E900, 0x1E921, 1, 0x22)]%Z.

(** Unicode 14.0 property [Cased], as code point ranges. *)
Definition cased_ranges : list (Z * Z) := [
  (0x41, 0x5A); (0x61, 0x7A); (0xAA, 0xAA); (0xB5, 0xB5); (0xBA, 0xBA);
  (0xC0, 0xD6); (0xD8, 0xF6); (0xF8, 0x1BA); (0x1BC, 0x1BF); (0x1C4, 0x293);
  (0x295, 0x2B8); (0x2C0, 0x2C1); (0x2E0, 0x2E4); (0x345, 0x345); (0x370, 0x373);
  (0x376, 0x377); (0x37A, 0x37D); (0x37F, 0x37F); (0x386, 0x386); (0x388, 0x38A);
  (0x38C, 0x38C); (0x38E, 0x3A1); (0x3A3, 0x3F5); (0x3F7, 0x481); (0x48A, 0x52F);
  (0x531, 0x556); (0x560, 0x588); (0x10A0, 0x10C5); (0x10C7, 0x10C7); (0x10CD, 0x10CD);
  (0x10D0, 0x10FA); (0x10FD, 0x10FF); (0x13A0, 0x13F5); (0x13F8, 0x13FD); (0x1C80, 0x1C88);
  (0x1C90, 0x1CBA); (0x1CBD, 0x1CBF); (0x1D00, 0x1DBF); (0x1E00, 0x1F15); (0x1F18, 0x1F1D);
  (0x1F20, 0x1F45); (0x1F48, 0x1F4D); (0x1F50, 0x1F57); (0x1F59, 0x1F59); (0x1F5B, 0x1F5B);
  (0x1F5D, 0x1F5D); (0x1F5F, 0x1F7D); (0x1F80, 0x1FB4); (0x1FB6, 0x1FBC); (0x1FBE, 0x1FBE);
  (0x1FC2, 0x1FC4); (0x1FC6, 0x1FCC); (0x1FD0, 0x1FD3); (0x1FD6, 0x1FDB); (0x1FE0, 0x1FEC);
  (0x1FF2, 0x1FF4); (0x1FF6, 0x1FFC); (0x2071, 0x2071); (0x207F, 0x207F); (0x2090, 0x209C);
  (0x2102, 0x2102); (0x2107, 0x2107); (0x210A, 0x2113); (0x2115, 0x2115); (0x2119, 0x211D);
  (0x2124, 0x2124); (0x2126, 0x2126); (0x2128, 0x2128); (0x212A, 0x212D); (0x212F, 0x2134);
  (0x2139, 0x2139); (0x213C, 0x213F); (0x2145, 0x2149); (0x214E, 0x214E); (0x2160, 0x217F);
  (0x2183, 0x2184); (0x24B6, 0x24E9); (0x2C00, 0x2CE4); (0x2CEB, 0x2CEE); (0x2CF2, 0x2CF3);
  (0x2D00, 0x2D25); (0x2D27, 0x2D27); (0x2D2D, 0x2D2D); (0xA640, 0xA66D); (0xA680, 0xA69D);
  (0xA722, 0xA787); (0xA78B, 0xA78E); (0xA790, 0xA7CA); (0xA7D0, 0xA7D1); (0xA7D3, 0xA7D3);
  (0xA7D5, 0xA7D9); (0xA7F5, 0xA7F6); (0xA7F8, 0xA7FA); (0xAB30, 0xAB5A); (0xAB5C, 0xAB68);
  (0xAB70, 0xABBF); (0xFB00, 0xFB06); (0xFB13, 0xFB17); (0xFF21, 0xFF3A); (0xFF41, 0xFF5A);
  (0x10400, 0x1044F); (0x104B0, 0x104D3); (0x104D8, 0x104FB); (0x10570, 0x1057A); (0x1057C, 0x1058A);
  (0x1058C, 0x10592); (0x10594, 0x10595); (0x10597, 0x105A1); (0x105A3, 0x105B1); (0x105B3, 0x105B9);
  (0x105BB, 0x105BC); (0x10780, 0x10780); (0x10783, 0x10785); (0x10787, 0x107B0); (0x107B2, 0x107BA);
  (0x10C80, 0x10CB2); (0x10CC0, 0x10CF2); (0x118A0, 0x118DF); (0x16E40, 0x16E7F); (0x1D400, 0x1D454);
  (0x1D456, 0x1D49C); (0x1D49E, 0x1D49F); (0x1D4A2, 0x1D4A2); (0x1D4A5, 0x1D4A6); (0x1D4A9, 0x1D4AC);
  (0x1D4AE, 0x1D4B9); (0x1D4BB, 0x1D4BB); (0x1D4BD, 0x1D4C3); (0x1D4C5, 0x1D505); (0x1D507, 0x1D50A);
  (0x1D50D, 0x1D514); (0x1D516, 0x1D51C); (0x1D51E, 0x1D539); (0x1D53B, 0x1D53E); (0x1D540, 0x1D544);
  (0x1D546, 0x1D546); (0x1D54A, 0x1D550); (0x1D552, 0x1D6A5); (0x1D6A8, 0x1D6C0); (0x1D6C2, 0x1D6DA);
  (0x1D6DC, 0x1D6FA); (0x1D6FC, 0x1D714); (0x1D716, 0x1D734); (0x1D736, 0x1D74E); (0x1D750, 0x1D76E);
  (0x1D770, 0x1D788); (0x1D78A, 0x1D7A8); (0x1D7AA, 0x1D7C2); (0x1D7C4, 0x1D7CB); (0x1DF00, 0x1DF09);
  (0x1DF0B, 0x1DF1E); (0x1E900, 0x1E943); (0x1F130, 0x1F149); (0x1F150, 0x1F169); (0x1F170, 0x1F189)]%Z.

(** Unicode 14.0 property [Case_Ignorable], as code point ranges. *)
Definition case_ignorable_ranges : list (Z * Z) := [
  (0x27, 0x27); (0x2E, 0x2E); (0x3A, 0x3A); (0x5E, 0x5E); (0x60, 0x60);
  (0xA8, 0xA8); (0xAD, 0xAD); (0xAF, 0xAF); (0xB4, 0xB4); (0xB7, 0xB8);
  (0x2B0, 0x36F); (0x374, 0x375); (0x37A, 0x37A); (0x384, 0x385); (0x387, 0x387);
  (0x483, 0x489); (0x559, 0x559); (0x55F, 0x55F); (0x591, 0x5BD); (0x5BF, 0x5BF);
  (0x5C1, 0x5C2); (0x5C4, 0x5C5); (0x5C7, 0x5C7); (0x5F4, 0x5F4); (0x600, 0x605);
  (0x610, 0x61A); (0x61C, 0x61C); (0x640, 0x640); (0x64B, 0x65F); (0x670, 0x670);
  (0x6D6, 0x6DD); (0x6DF, 0x6E8); (0x6EA, 0x6ED); (0x70F, 0x70F); (0x711, 0x711);
  (0x730, 0x74A); (0x7A6, 0x7B0); (0x7EB, 0x7F5); (0x7FA, 0x7FA); (0x7FD, 0x7FD);
  (0x816, 0x82D); (0x859, 0x85B); (0x888, 0x888); (0x890, 0x891); (0x898, 0x89F);
  (0x8C9, 0x902); (0x93A, 0x93A); (0x93C, 0x93C); (0x941, 0x948); (0x94D, 0x94D);
  (0x951, 0x957); (0x962, 0x963); (0x971, 0x971); (0x981, 0x981); (0x9BC, 0x9BC);
  (0x9C1, 0x9C4); (0x9CD, 0x9CD); (0x9E2, 0x9E3); (0x9FE, 0x9FE); (0xA01, 0xA02);
  (0xA3C, 0xA3C); (0xA41, 0xA42); (0xA47, 0xA48); (0xA4B, 0xA4D); (0xA51, 0xA51);
  (0xA70, 0xA71); (0xA75, 0xA75); (0xA81, 0xA82); (0xABC, 0xABC); (0xAC1, 0xAC5);
  (0xAC7, 0xAC8); (0xACD, 0xACD); (0xAE2, 0xAE3); (0xAFA, 0xAFF); (0xB01, 0xB01);
  (0xB3C, 0xB3C); (0xB3F, 0xB3F); (0xB41, 0xB44); (0xB4D, 0xB4D); (0xB55, 0xB56);
  (0xB62, 0xB63); (0xB82, 0xB82); (0xBC0, 0xBC0); (0xBCD, 0xBCD); (0xC00, 0xC00);
  (0xC04, 0xC04); (0xC3C, 0xC3C); (0xC3E, 0xC40); (0xC46, 0xC48); (0xC4A, 0xC4D);
  (0xC55, 0xC56); (0xC62, 0xC63); (0xC81, 0xC81); (0xCBC, 0xCBC); (0xCBF, 0xCBF);
  (0xCC6, 0xCC6); (0xCCC, 0xCCD); (0xCE2, 0xCE3); (0xD00, 0xD01); (0xD3B, 0xD3C);
  (0xD41, 0xD44); (0xD4D, 0xD4D); (0xD62, 0xD63); (0xD81, 0xD81); (0xDCA, 0xDCA);
  (0xDD2, 0xDD4); (0xDD6, 0xDD6); (0xE31, 0xE31); (0xE34, 0xE3A); (0xE46, 0xE4E);
  (0xEB1, 0xEB1); (0xEB4, 0xEBC); (0xEC6, 0xEC6); (0xEC8, 0xECD); (0xF18, 0xF19);
  (0xF35, 0xF35); (0xF37, 0xF37); (0xF39, 0xF39); (0xF71, 0xF7E); (0xF80, 0xF84);
  (0xF86, 0xF87); (0xF8D, 0xF97); (0xF99, 0xFBC); (0xFC6, 0xFC6); (0x102D, 0x1030);
  (0x1032, 0x1037); (0x1039, 0x103A); (0x103D, 0x103E); (0x1058, 0x1059); (0x105E, 0x1060);
  (0x1071, 0x1074); (0x1082, 0x1082); (0x1085, 0x1086); (0x108D, 0x108D); (0x109D, 0x109D);
  (0x10FC, 0x10FC); (0x135D, 0x135F); (0x1712, 0x1714); (0x1732, 0x1733); (0x1752, 0x1753);
  (0x1772, 0x1773); (0x17B4, 0x17B5); (0x17B7, 0x17BD); (0x17C6, 0x17C6); (0x17C9, 0x17D3);
  (0x17D7, 0x17D7); (0x17DD, 0x17DD); (0x180B, 0x180F); (0x1843, 0x1843); (0x1885, 0x1886);
  (0x18A9, 0x18A9); (0x1920, 0x1922); (0x1927, 0x1928); (0x1932, 0x1932); (0x1939, 0x193B);
  (0x1A17, 0x1A18); (0x1A1B, 0x1A1B); (0x1A56, 0x1A56); (0x1A58, 0x1A5E); (0x1A60, 0x1A60);
  (0x1A62, 0x1A62); (0x1A65, 0x1A6C); (0x1A73, 0x1A7C); (0x1A7F, 0x1A7F); (0x1AA7, 0x1AA7);
  (0x1AB0, 0x1ACE); (0x1B00, 0x1B03); (0x1B34, 0x1B34); (0x1B36, 0x1B3A); (0x1B3C, 0x1B3C);
  (0x1B42, 0x1B42); (0x1B6B, 0x1B73); (0x1B80, 0x1B81); (0x1BA2, 0x1BA5); (0x1BA8, 0x1BA9);
  (0x1BAB, 0x1BAD); (0x1BE6, 0x1BE6); (0x1BE8, 0x1BE9); (0x1BED, 0x1BED); (0x1BEF, 0x1BF1);
  (0x1C2C, 0x1C33); (0x1C36, 0x1C37); (0x1C78, 0x1C7D); (0x1CD0, 0x1CD2); (0x1CD4, 0x1CE0);
  (0x1CE2, 0x1CE8); (0x1CED, 0x1CED); (0x1CF4, 0x1CF4); (0x1CF8, 0x1CF9); (0x1D2C, 0x1D6A);
  (0x1D78, 0x1D78); (0x1D9B, 0x1DFF); (0x1FBD, 0x1FBD); (0x1FBF, 0x1FC1); (0x1FCD, 0x1FCF);
  (0x1FDD, 0x1FDF); (0x1FED, 0x1FEF); (0x1FFD, 0x1FFE); (0x200B, 0x200F); (0x2018, 0x2019);
  (0x2024, 0x2024); (0x2027, 0x2027); (0x202A, 0x202E); (0x2060, 0x2064); (0x2066, 0x206F);
  (0x2071, 0x2071); (0x207F, 0x207F); (0x2090, 0x209C); (0x20D0, 0x20F0); (0x2C7C, 0x2C7D);
  (0x2CEF, 0x2CF1); (0x2D6F, 0x2D6F); (0x2D7F, 0x2D7F); (0x2DE0, 0x2DFF); (0x2E2F, 0x2E2F);
  (0x3005, 0x3005); (0x302A, 0x302D); (0x3031, 0x3035); (0x303B, 0x303B); (0x3099, 0x309E);
  (0x30FC, 0x30FE); (0xA015, 0xA015); (0xA4F8, 0xA4FD); (0xA60C, 0xA60C); (0xA66F, 0xA672);
  (0xA674, 0xA67D); (0xA67F, 0xA67F); (0xA69C, 0xA69F); (0xA6F0, 0xA6F1); (0xA700, 0xA721);
  (0xA770, 0xA770); (0xA788, 0xA78A); (0xA7F2, 0xA7F4); (0xA7F8, 0xA7F9); (0xA802, 0xA802);
  (0xA806, 0xA806); (0xA80B, 0xA80B); (0xA825, 0xA826); (0xA82C, 0xA82C); (0xA8C4, 0xA8C5);
  (0xA8E0, 0xA8F1); (0xA8FF, 0xA8FF); (0xA926, 0xA92D); (0xA947, 0xA951); (0xA980, 0xA982);
  (0xA9B3, 0xA9B3); (0xA9B6, 0xA9B9); (0xA9BC, 0xA9BD); (0xA9CF, 0xA9CF); (0xA9E5, 0xA9E6);
  (0xAA29, 0xAA2E); (0xAA31, 0xAA32); (0xAA35, 0xAA36); (0xAA43, 0xAA43); (0xAA4C, 0xAA4C);
  (0xAA70, 0xAA70); (0xAA7C, 0xAA7C); (0xAAB0, 0xAAB0); (0xAAB2, 0xAAB4); (0xAAB7, 0xAAB8);
  (0xAABE, 0xAABF); (0xAAC1, 0xAAC1); (0xAADD, 0xAADD); (0xAAEC, 0xAAED); (0xAAF3, 0xAAF4);
  (0xAAF6, 0xAAF6); (0xAB5B, 0xAB5F); (0xAB69, 0xAB6B); (0xABE5, 0xABE5); (0xABE8, 0xABE8);
  (0xABED, 0xABED); (0xFB1E, 0xFB1E); (0xFBB2, 0xFBC2); (0xFE00, 0xFE0F); (0xFE13, 0xFE13);
  (0xFE20, 0xFE2F); (0xFE52, 0xFE52); (0xFE55, 0xFE55); (0xFEFF, 0xFEFF); (0xFF07, 0xFF07);
  (0xFF0E, 0xFF0E); (0xFF1A, 0xFF1A); (0xFF3E, 0xFF3E); (0xFF40, 0xFF40); (0xFF70, 0xFF70);
  (0xFF9E, 0xFF9F); (0xFFE3, 0xFFE3); (0xFFF9, 0xFFFB); (0x101FD, 0x101FD); (0x102E0, 0x102E0);
  (0x10376, 0x1037A); (0x10780, 0x10785); (0x10787, 0x107B0); (0x107B2, 0x107BA); (0x10A01, 0x10A03);
  (0x10A05, 0x10A06); (0x10A0C, 0x10A0F); (0x10A38, 0x10A3A); (0x10A3F, 0x10A3F); (0x10AE5, 0x10AE6);
  (0x10D24, 0x10D27); (0x10EAB, 0x10EAC); (0x10F46, 0x10F50); (0x10F82, 0x10F85); (0x11001, 0x11001);
  (0x11038, 0x11046); (0x11070, 0x11070); (0x11073, 0x11074); (0x1107F, 0x11081); (0x110B3, 0x110B6);
  (0x110B9, 0x110BA); (0x110BD, 0x110BD); (0x110C2, 0x110C2); (0x110CD, 0x110CD); (0x11100, 0x11102);
  (0x11127, 0x1112B); (0x1112D, 0x11134); (0x11173, 0x11173); (0x11180, 0x11181); (0x111B6, 0x111BE);
  (0x111C9, 0x111CC); (0x111CF, 0x111CF); (0x1122F, 0x11231); (0x11234, 0x11234); (0x11236, 0x11237);
  (0x1123E, 0x1123E); (0x112DF, 0x112DF); (0x112E3, 0x112EA); (0x11300, 0x11301); (0x1133B, 0x1133C);
  (0x11340, 0x11340); (0x11366, 0x1136C); (0x11370, 0x11374); (0x11438, 0x1143F); (0x11442, 0x11444);
  (0x11446, 0x11446); (0x1145E, 0x1145E); (0x114B3, 0x114B8); (0x114BA, 0x114BA); (0x114BF, 0x114C0);
  (0x114C2, 0x114C3); (0x115B2, 0x115B5); (0x115BC, 0x115BD); (0x115BF, 0x115C0); (0x115DC, 0x115DD);
  (0x11633, 0x1163A); (0x1163D, 0x1163D); (0x1163F, 0x11640); (0x116AB, 0x116AB); (0x116AD, 0x116AD);
  (0x116B0, 0x116B5); (0x116B7, 0x116B7); (0x1171D, 0x1171F); (0x11722, 0x11725); (0x11727, 0x1172B);
  (0x1182F, 0x11837); (0x11839, 0x1183A); (0x1193B, 0x1193C); (0x1193E, 0x1193E); (0x11943, 0x11943);
  (0x119D4, 0x119D7); (0x119DA, 0x119DB); (0x119E0, 0x119E0); (0x11A01, 0x11A0A); (0x11A33, 0x11A38);
  (0x11A3B, 0x11A3E); (0x11A47, 0x11A47); (0x11A51, 0x11A56); (0x11A59, 0x11A5B); (0x11A8A, 0x11A96);
  (0x11A98, 0x11A99); (0x11C30, 0x11C36); (0x11C38, 0x11C3D); (0x11C3F, 0x11C3F); (0x11C92, 0x11CA7);
  (0x11CAA, 0x11CB0); (0x11CB2, 0x11CB3); (0x11CB5, 0x11CB6); (0x11D31, 0x11D36); (0x11D3A, 0x11D3A);
  (0x11D3C, 0x11D3D); (0x11D3F, 0x11D45); (0x11D47, 0x11D47); (0x11D90, 0x11D91); (0x11D95, 0x11D95);
  (0x11D97, 0x11D97); (0x11EF3, 0x11EF4); (0x13430, 0x13438); (0x16AF0, 0x16AF4); (0x16B30, 0x16B36);
  (0x16B40, 0x16B43); (0x16F4F, 0x16F4F); (0x16F8F, 0x16F9F); (0x16FE0, 0x16FE1); (0x16FE3, 0x16FE4);
  (0x1AFF0, 0x1AFF3); (0x1AFF5, 0x1AFFB); (0x1AFFD, 0x1AFFE); (0x1BC9D, 0x1BC9E); (0x1BCA0, 0x1BCA3);
  (0x1CF00, 0x1CF2D); (0x1CF30, 0x1CF46); (0x1D167, 0x1D169); (0x1D173, 0x1D182); (0x1D185, 0x1D18B);
  (0x1D1AA, 0x1D1AD); (0x1D242, 0x1D244); (0x1DA00, 0x1DA36); (0x1DA3B, 0x1DA6C); (0x1DA75, 0x1DA75);
  (0x1DA84, 0x1DA84); (0x1DA9B, 0x1DA9F); (0x1DAA1, 0x1DAAF); (0x1E000, 0x1E006); (0x1E008, 0x1E018);
  (0x1E01B, 0x1E021); (0x1E023, 0x1E024); (0x1E026, 0x1E02A); (0x1E130, 0x1E13D); (0x1E2AE, 0x1E2AE);
  (0x1E2EC, 0x1E2EF); (0x1E8D0, 0x1E8D6); (0x1E944, 0x1E94B); (0x1F3FB, 0x1F3FF); (0xE0001, 0xE0001);
  (0xE0020, 0xE007F); (0xE0100, 0xE01EF)]%Z.

Definition in_ranges (rs : list (Z * Z)) (c : Z) : bool :=
  existsb (fun r => (fst r <=? c)%Z && (c <=? snd r)%Z) rs.

Definition is_cased (c : Z) : bool := in_ranges cased_ranges c.

Definition is_case_ignorable (c : Z) : bool := in_ranges case_ignorable_ranges c.

(** [_PyUnicode_ToLowerFull]: U+0130 is the one code point whose lower case
    is two code points. *)
Definition to_lower_full (c : Z) : list Z :=
  if (c =? 0x130)%Z then [0x69; 0x307]%Z
  else
    match find (fun '(lo, hi, step, _) =>
                  (lo <=? c)%Z && (c <=? hi)%Z && ((step =? 0)%Z || ((c - lo) mod step =? 0)%Z))
               lower_runs with
    | Some (_, _, _, delta) => [(c + delta)%Z]
    | None => [c]
    end.

Fixpoint skip_case_ignorable (cs : list Z) : list Z :=
  match cs with
  | c :: rest => if is_case_ignorable c then skip_case_ignorable rest else cs
  | [] => []
  end.

(** [handle_capital_sigma]: [before] holds the code points before the
    capital sigma, nearest first, and [after] those after it. *)
Definition final_sigma (before after : list Z) : bool :=
  match skip_case_ignorable before with
  | [] => false
  | c :: _ =>
      is_cased c &&
      match skip_case_ignorable after with
      | [] => true
      | c' :: _ => negb (is_cased c')
      end
  end.

(** [lower_ucs4] over the whole string. *)
Fixpoint lower_cps (before cs : list Z) : list Z :=
  match cs with
  | [] => []
  | c :: rest =>
      (if (c =? 0x3A3)%Z then [if final_sigma before rest then 0x3C2%Z else 0x3C3%Z]
       else to_lower_full c) ++ lower_cps (c :: before) rest
  end.

(** [s.lower()] *)
Definition py_lower (s : string) : string := utf8_encode (lower_cps [] (str_cps s)).

(** [Py_UNICODE_ISSPACE] *)
Definition py_isspace (c : Z) : bool :=
  ((9 <=? c)%Z && (c <=? 13)%Z) || ((0x1C <=? c)%Z && (c <=? 0x20)%Z)
  || (c =? 0x85)%Z || (c =? 0xA0)%Z || (c =? 0x1680)%Z
  || ((0x2000 <=? c)%Z && (c <=? 0x200A)%Z) || (c =? 0x2028)%Z || (c =? 0x2029)%Z
  || (c =? 0x202F)%Z || (c =? 0x205F)%Z || (c =? 0x3000)%Z.

Fixpoint lstrip_by (p : Z -> bool) (cs : list Z) : list Z :=
  match cs with
  | c :: rest => if p c then lstrip_by p rest else cs
  | [] => []
  end.

Definition strip_by (p : Z -> bool) (cs : list Z) : list Z :=
  rev (lstrip_by p (rev (lstrip_by p cs))).

(** [s.strip()] *)
Definition py_strip (s : string) : string := utf8_encode (strip_by py_isspace (str_cps s)).

Arguments py_lower : simpl never.
Arguments py_strip : simpl never.

End Py.

Import Py.

(** ** The recommendation engine *)
Module Engine.

(** A normalized track as the engine handles it: [t_id] is [track['id']],
    [t_artist_ids] the truthy [a.get('id')] of the dicts in
    [track['artists']], [t_lastfm_match] the key ['lastfm_match'] set by the
    Last.fm cascade.  Last.fm's float scores are only ever compared, so they
    are kept as integers here. *)
Record track := mk_track {
  t_id : string;
  t_artist_ids : list string;
  t_lastfm_match : option Z;
  t_preview_url : option string
}.

(** The [result] dictionary of [get_recommendations]. *)
Record result := mk_result {
  r_tracks : list track;
  r_lastfm : bool;
  r_spotify : bool
}.

Definition empty_result : result := mk_result [] false false.

(** The helper a call goes to, with the [limit] and [expand_search] it is
    given and the number of tracks [result['tracks']] held at that time. *)
Inductive helper := HGenreOnly | HLastfm | HSpotifyRecs | HFallback.

Record call := mk_call {
  c_helper : helper;
  c_limit : Z;
  c_expand : option bool;
  c_held : nat
}.

Record state := mk_state {
  s_result : result;
  s_calls : list call
}.

(** State (the mutable [result] dict and the calls made) and exceptions. *)
Definition M (A : Type) : Type := state -> state * exc A.

Definition ret {A} (a : A) : M A := fun s => (s, Ok a).

Definition bind {A B} (m : M A) (k : A -> M B) : M B :=
  fun s => match m s with
           | (s', Ok a) => k a s'
           | (s', Raised) => (s', Raised)
           end.

Declare Scope engine_scope.
Notation "x <- m ;; k" := (bind m (fun x => k))
  (at level 61, m at next level, right associativity) : engine_scope.
Notation "m ;;; k" := (bind m (fun _ => k))
  (at level 61, right associativity) : engine_scope.
Open Scope engine_scope.

Definition get_tracks : M (list track) :=
  fun s => (s, Ok (r_tracks (s_result s))).

Definition set_tracks (ts : list track) : M unit :=
  fun s => let r := s_result s in
           (mk_state (mk_result ts (r_lastfm r) (r_spotify r)) (s_calls s), Ok tt).

Definition set_lastfm (b : bool) : M unit :=
  fun s => let r := s_result s in
           (mk_state (mk_result (r_tracks r) b (r_spotify r)) (s_calls s), Ok tt).

Definition set_spotify (b : bool) : M unit :=
  fun s => let r := s_result s in
           (mk_state (mk_result (r_tracks r) (r_lastfm r) b) (s_calls s), Ok tt).

(** Calling a helper: record the call, then return what it returned or
    propagate what it raised. *)
Definition call_helper (h : helper) (lim : Z) (ex : option bool)
    (res : exc (list track)) : M (list track) :=
  fun s => (mk_state (s_result s)
              (s_calls s ++ [mk_call h lim ex (length (r_tracks (s_result s)))]),
            res).

Definition not_excluded (exclude_set : list string) (t : track) : bool :=
  negb (mem (t_id t) exclude_set).

(** The merges of Steps 2 and 3 of the artist strategy:
    [if track_id and track_id not in existing_ids and track_id not in exclude_set:
       result['tracks'].append(track); existing_ids.add(track_id)] *)
Fixpoint merge_new (exclude_set existing_ids : list string) (acc : list track)
    (incoming : list track) : list track :=
  match incoming with
  | [] => acc
  | t :: rest =>
      if truthy_str (t_id t) && negb (mem (t_id t) existing_ids)
         && negb (mem (t_id t) exclude_set)
      then merge_new exclude_set (existing_ids ++ [t_id t]) (acc ++ [t]) rest
      else merge_new exclude_set existing_ids acc rest
  end.

Definition len_lt (l : list track) (limit : Z) : bool :=
  (Z.of_nat (length l) <? limit)%Z.

(** ** Merging helpers shared by the strategies *)

(** Appending new tracks under a cap, as in the [as_completed] loops:
    [if track_id and track_id not in seen_track_ids:
       seen_track_ids.add(track_id); recommendations.append(track)
       if len(recommendations) >= limit: break] *)
Fixpoint take_new_capped (limit : Z) (seen : list string) (recs : list track)
    (ts : list track) : list string * list track :=
  match ts with
  | [] => (seen, recs)
  | t :: rest =>
      if truthy_str (t_id t) && negb (mem (t_id t) seen) then
        let seen' := seen ++ [t_id t] in
        let recs' := recs ++ [t] in
        if (limit <=? Z.of_nat (length recs'))%Z then (seen', recs')
        else take_new_capped limit seen' recs' rest
      else take_new_capped limit seen recs rest
  end.

(** The outer loop over the finished futures, with its own
    [if len(recommendations) >= limit: break]. *)
Fixpoint merge_batches_capped (limit : Z) (seen : list string) (recs : list track)
    (batches : list (list track)) : list string * list track :=
  match batches with
  | [] => (seen, recs)
  | b :: bs =>
      let '(seen', recs') := take_new_capped limit seen recs b in
      if (limit <=? Z.of_nat (length recs'))%Z then (seen', recs')
      else merge_batches_capped limit seen' recs' bs
  end.

(** The same loop without a cap (merging the genre-based tracks). *)
Fixpoint add_new (seen : list string) (recs : list track) (ts : list track)
    : list string * list track :=
  match ts with
  | [] => (seen, recs)
  | t :: rest =>
      if truthy_str (t_id t) && negb (mem (t_id t) seen)
      then add_new (seen ++ [t_id t]) (recs ++ [t]) rest
      else add_new seen recs rest
  end.

(** [list.sort(key=key, reverse=True)]: stable, so equal keys keep their
    order.  Each element is inserted after every earlier one whose key is at
    least its own. *)
Fixpoint insert_desc {A} (key : A -> Z) (x : A) (l : list A) : list A :=
  match l with
  | [] => [x]
  | y :: ys => if (key y <? key x)%Z then x :: y :: ys else y :: insert_desc key x ys
  end.

Definition sort_desc {A} (key : A -> Z) (l : list A) : list A :=
  fold_left (fun acc x => insert_desc key x acc) l [].

(** [x.get('lastfm_match', 0)] *)
Definition match_key (t : track) : Z :=
  match t_lastfm_match t with Some m => m | None => 0%Z end.

(** [not any(aid in seed_artists for aid in track_artist_ids)] *)
Definition no_seed_artist (seed_artists : list string) (t : track) : bool :=
  negb (existsb (fun aid => mem aid seed_artists) (t_artist_ids t)).

(** ** [_get_genre_only_recommendations] *)

(** [category_map] *)
Definition category_map : list (string * string) :=
  [("pop", "pop"); ("rock", "rock"); ("hip-hop", "hip hop"); ("hip hop", "hip hop");
   ("electronic", "electronic"); ("jazz", "jazz"); ("classical", "classical");
   ("country", "country"); ("r-n-b", "r&b"); ("r&b", "r&b"); ("metal", "metal");
   ("indie", "indie"); ("folk", "folk"); ("reggae", "reggae")]%string.

Fixpoint assoc_get (k : string) (m : list (string * string)) : option string :=
  match m with
  | [] => None
  | (k', v) :: m' => if String.eqb k k' then Some v else assoc_get k m'
  end.

(** [category_map.get(genre_lower, genre_lower)] with
    [genre_lower = genre.lower().strip()] *)
Definition normalize_genre (genre : string) : string :=
  let genre_lower := py_strip (py_lower genre) in
  match assoc_get genre_lower category_map with
  | Some g => g
  | None => genre_lower
  end.

(** [tracks_per_genre] *)
Definition tracks_per_genre (limit : Z) (n_genres : nat) (expand_search : bool) : Z :=
  let base := if (0 <? n_genres)%nat then (limit / Z.of_nat n_genres + 10)%Z else limit in
  if expand_search then (base * 2)%Z else base.

Section GenreOnly.

(** [search_tracks(token, query, limit)]: normalized tracks, or an exception. *)
Variable search_tracks : string -> Z -> exc (list track).
(** The order in which [as_completed] yields the futures' results. *)
Variable as_completed : forall A : Type, list A -> list A.
(** [random.shuffle] *)
Variable shuffle : list track -> list track.

(** [for query in additional_queries: ...] with its inner [try]. *)
Fixpoint additional_searches (queries : list string) (tpg : Z)
    (existing_ids : list string) (genre_tracks : list track) : list track :=
  match queries with
  | [] => genre_tracks
  | q :: qs =>
      if (tpg <=? Z.of_nat (length genre_tracks))%Z then genre_tracks
      else
        match search_tracks q (Z.min 20 (tpg - Z.of_nat (length genre_tracks))) with
        | Raised => additional_searches qs tpg existing_ids genre_tracks
        | Ok more =>
            let '(ids', gt') := add_new existing_ids genre_tracks more in
            additional_searches qs tpg ids' gt'
        end
  end.

(** [search_genre(genre_name)]: the first search raising leaves
    [genre_tracks] empty. *)
Definition search_genre (n_genres : nat) (limit : Z) (expand_search : bool)
    (genre_name : string) : list track :=
  let tpg := tracks_per_genre limit n_genres expand_search in
  match search_tracks genre_name (Z.min tpg 50) with
  | Raised => []
  | Ok search_results =>
      let genre_tracks := filter (fun t => truthy_str (t_id t)) search_results in
      if (Z.of_nat (length genre_tracks) <? tpg)%Z then
        additional_searches
          [String.append genre_name " music"; String.append "popular " genre_name;
           String.append "best " genre_name]%string
          tpg (map t_id genre_tracks) genre_tracks
      else genre_tracks
  end.

Definition genre_only_recs (seed_genres : list string) (limit : Z)
    (expand_search : bool) : exc (list track) :=
  let normalized_genres := map normalize_genre (firstn 5 seed_genres) in
  let recommendations :=
    match normalized_genres with
    | [] => []
    | _ :: _ =>
        snd (merge_batches_capped limit [] []
               (as_completed _ (map (search_genre (length normalized_genres) limit
                                       expand_search) normalized_genres)))
    end in
  Ok (py_take limit (shuffle recommendations)).

End GenreOnly.

(** ** [_get_lastfm_recommendations] *)
Section Lastfm.

Variable as_completed : forall A : Type, list A -> list A.
(** [get_artist_name(artist_id)]: the Spotify artist name, [''] on failure. *)
Variable artist_name_of : string -> string.
(** [get_similar_artists(name, limit)]: [(name, match)] pairs. *)
Variable similar_artists : string -> Z -> list (string * Z).
(** [get_lastfm_top_tracks(name, limit)]: the track names. *)
Variable lastfm_top_tracks : string -> Z -> list string.
(** [search_tracks(token, query, limit)] *)
Variable search_tracks : string -> Z -> exc (list track).
(** The preview fetch [GET /v1/tracks/{id}]: the [preview_url] it found. *)
Variable fetch_preview : string -> option string.
(** [GET /v1/tracks/{id}] for a seed track: [Some (name, first artist name)]
    on status 200, [None] otherwise, or an exception. *)
Variable track_lookup : string -> exc (option (string * string)).
(** [get_similar_tracks(track, artist, limit)]: [(name, artist, match)]. *)
Variable similar_tracks : string -> string -> Z -> list (string * string * Z).
(** [self._get_genre_based_recommendations(artist_names, seed_artists, limit, expand)] *)
Variable genre_based_recs : list string -> list string -> Z -> bool -> exc (list track).

Variable seed_artists : list string.

(** [if not track.get('preview_url') and track_id: ... track['preview_url'] = preview_url] *)
Definition with_preview (t : track) : track :=
  match t_preview_url t with
  | Some p => if truthy_str p then t else
      match fetch_preview (t_id t) with
      | Some q => if truthy_str q then mk_track (t_id t) (t_artist_ids t) (t_lastfm_match t) (Some q) else t
      | None => t
      end
  | None =>
      match fetch_preview (t_id t) with
      | Some q => if truthy_str q then mk_track (t_id t) (t_artist_ids t) (t_lastfm_match t) (Some q) else t
      | None => t
      end
  end.

Definition set_match (m : Z) (t : track) : track :=
  mk_track (t_id t) (t_artist_ids t) (Some m) (t_preview_url t).

(** The inner [for track in spotify_tracks] of [get_tracks_from_similar]:
    the first hit with an id and no seed artist. *)
Fixpoint first_admissible (ts : list track) : option track :=
  match ts with
  | [] => None
  | t :: rest =>
      if negb (truthy_str (t_id t)) then first_admissible rest
      else if no_seed_artist seed_artists t then Some t
      else first_admissible rest
  end.

Fixpoint collect_similar_tracks (similar_name : string) (match_score : Z)
    (names : list string) (acc : list track) : exc (list track) :=
  match names with
  | [] => Ok acc
  | n :: ns =>
      if negb (truthy_str n) then collect_similar_tracks similar_name match_score ns acc
      else
        match search_tracks (String.append n (String.append " " similar_name)) 2 with
        | Raised => Raised
        | Ok sts =>
            match first_admissible sts with
            | Some t =>
                collect_similar_tracks similar_name match_score ns
                  (acc ++ [set_match match_score (with_preview t)])
            | None => collect_similar_tracks similar_name match_score ns acc
            end
        end
  end.

(** [get_tracks_from_similar(similar)] inside [process_artist(artist_name)]:
    the names whose Last.fm top tracks are fetched, and the tracks found. *)
Definition get_tracks_from_similar (artist_name : string) (tracks_per_artist : Z)
    (similar : string * Z) : list string * list track :=
  let '(similar_name, match_score) := similar in
  if String.eqb (py_lower similar_name) (py_lower artist_name) then ([], [])
  else
    ([similar_name],
     match collect_similar_tracks similar_name match_score
             (lastfm_top_tracks similar_name tracks_per_artist) [] with
     | Ok ts => ts
     | Raised => []
     end).

Variable expand_search : bool.

Definition process_artist (artist_name : string) : list string * list track :=
  let similar_limit := if expand_search then 20%Z else 10%Z in
  match similar_artists artist_name similar_limit with
  | [] => ([], [])
  | sims =>
      let sorted := sort_desc snd sims in
      let '(artists_to_use, tracks_per_artist) :=
        if expand_search then (firstn 15 sorted, 8%Z) else (firstn 8 sorted, 5%Z) in
      let results := as_completed _ (map (get_tracks_from_similar artist_name tracks_per_artist)
                                        artists_to_use) in
      (concat (map fst results), concat (map snd results))
  end.

Variable limit : Z.

(** [for track in spotify_tracks: if track_id and track_id not in seen_track_ids: ...; break] *)
Fixpoint first_new (m : Z) (seen : list string) (recs : list track) (ts : list track)
    : list string * list track :=
  match ts with
  | [] => (seen, recs)
  | t :: rest =>
      if truthy_str (t_id t) && negb (mem (t_id t) seen)
      then (seen ++ [t_id t], recs ++ [set_match m t])
      else first_new m seen recs rest
  end.

(** [for similar in tracks_to_use:]; [None] when a search raised (the
    [except] then ends this seed track, keeping what was appended). *)
Fixpoint similar_track_hits (sims : list (string * string * Z)) (seen : list string)
    (recs : list track) : list string * list track :=
  match sims with
  | [] => (seen, recs)
  | (n, a, m) :: rest =>
      if (limit <=? Z.of_nat (length recs))%Z then (seen, recs)
      else if negb (truthy_str n) || negb (truthy_str a) then similar_track_hits rest seen recs
      else
        match search_tracks (String.append n (String.append " " a)) 3 with
        | Raised => (seen, recs)
        | Ok sts =>
            let '(seen', recs') := first_new m seen recs sts in
            similar_track_hits rest seen' recs'
        end
  end.

(** [for track_id in seed_tracks[:max_seed_tracks]:] *)
Fixpoint similar_track_step (tids : list string) (seen : list string) (recs : list track)
    : list string * list track :=
  match tids with
  | [] => (seen, recs)
  | tid :: rest =>
      if (limit <=? Z.of_nat (length recs))%Z then (seen, recs)
      else
        let '(seen', recs') :=
          match track_lookup tid with
          | Ok (Some (track_name, artist_name)) =>
              if truthy_str track_name && truthy_str artist_name then
                let sims := similar_tracks track_name artist_name
                              (if expand_search then 15%Z else 10%Z) in
                similar_track_hits (if expand_search then firstn 10 sims else firstn 5 sims)
                  seen recs
              else (seen, recs)
          | _ => (seen, recs)
          end in
        similar_track_step rest seen' recs'
  end.

Variable seed_tracks : list string.

Definition lastfm_recs : exc (list track) :=
  let artist_names :=
    filter truthy_str (as_completed _ (map artist_name_of (firstn 3 seed_artists))) in
  let '(seen1, recs1) :=
    match artist_names with
    | [] => ([], [])
    | _ :: _ =>
        merge_batches_capped limit [] []
          (as_completed _ (map (fun n => snd (process_artist n)) artist_names))
    end in
  let max_seed_tracks := if expand_search then 5 else 3 in
  let '(seen2, recs2) :=
    if (0 <? length seed_tracks)%nat && (Z.of_nat (length recs1) <? limit)%Z
    then similar_track_step (firstn max_seed_tracks seed_tracks) seen1 recs1
    else (seen1, recs1) in
  if (expand_search || (Z.of_nat (length recs2) <? limit)%Z)
     && (0 <? length artist_names)%nat then
    let genre_limit :=
      if expand_search then ((limit - Z.of_nat (length recs2)) * 2)%Z
      else (limit - Z.of_nat (length recs2))%Z in
    match genre_based_recs artist_names seed_artists genre_limit expand_search with
    | Raised => Raised
    | Ok gts =>
        let '(_, recs3) := add_new seen2 recs2 gts in
        Ok (py_take limit (sort_desc match_key recs3))
    end
  else Ok (py_take limit (sort_desc match_key recs2)).

End Lastfm.

Section Orchestrator.

(** [self._get_genre_only_recommendations(seed_genres, limit, expand_search)] *)
Variable genre_only_recs : list string -> Z -> bool -> exc (list track).
(** [self._get_lastfm_recommendations(seed_artists, seed_tracks, limit, expand_search)] *)
Variable lastfm_recs : list string -> list string -> Z -> bool -> exc (list track).
(** [spotify_api.get_recommendations(token, seed_artists=..., seed_genres=..., limit=...)] *)
Variable spotify_recs : list string -> list string -> Z -> exc (list track).
(** [self._get_spotify_fallback_recommendations(seed_artists, limit, expand_search)] *)
Variable fallback_recs : list string -> Z -> bool -> exc (list track).

(** [result['tracks'] = result['tracks'][:limit]] *)
Definition truncate (limit : Z) : M unit :=
  cur <- get_tracks ;; set_tracks (py_take limit cur).

(** The body of the [try] block of [get_recommendations]. *)
Definition recommend_body (seed_artists seed_tracks seed_genres : list string)
    (limit : Z) (exclude_set : list string) (search_limit : Z)
    (expand_search : bool) : M unit :=
  let has_artists := (0 <? length seed_artists)%nat in
  let has_tracks := (0 <? length seed_tracks)%nat in
  let has_genres := (0 <? length seed_genres)%nat in
  if has_genres && negb has_artists && negb has_tracks then
    (* Strategy 1: genre-only *)
    recs <- call_helper HGenreOnly search_limit (Some expand_search)
              (genre_only_recs seed_genres search_limit expand_search) ;;
    let recs := filter (not_excluded exclude_set) recs in
    set_tracks (py_take limit recs) ;;;
    set_lastfm (0 <? length recs)%nat ;;;
    truncate limit
  else if has_artists then
    (* Strategy 2: artist-seeded *)
    lt <- call_helper HLastfm search_limit (Some expand_search)
            (lastfm_recs seed_artists seed_tracks search_limit expand_search) ;;
    let lt := filter (not_excluded exclude_set) lt in
    set_tracks lt ;;;
    set_lastfm (0 <? length lt)%nat ;;;
    cur <- get_tracks ;;
    (if len_lt cur limit && has_genres then
       let lim := (search_limit - Z.of_nat (length cur))%Z in
       gt <- call_helper HSpotifyRecs lim None
               (spotify_recs (firstn 5 seed_artists) (firstn 5 seed_genres) lim) ;;
       set_tracks (merge_new exclude_set (map t_id cur) cur gt)
     else ret tt) ;;;
    cur <- get_tracks ;;
    (if len_lt cur limit then
       let lim := (search_limit - Z.of_nat (length cur))%Z in
       st <- call_helper HFallback lim (Some expand_search)
               (fallback_recs seed_artists lim expand_search) ;;
       set_tracks (merge_new exclude_set (map t_id cur) cur st) ;;;
       set_spotify (0 <? length st)%nat
     else ret tt) ;;;
    truncate limit
  else if has_tracks then
    (* Strategy 3: track-only *)
    lt <- call_helper HLastfm search_limit (Some expand_search)
            (lastfm_recs seed_artists seed_tracks search_limit expand_search) ;;
    let lt := filter (not_excluded exclude_set) lt in
    set_tracks lt ;;;
    set_lastfm (0 <? length lt)%nat ;;;
    truncate limit
  else truncate limit.

Definition init_state : state := mk_state empty_result [].

(** The whole method: the regeneration set-up before the [try], then the
    body, whose exceptions are caught ([except Exception]) before [return
    result].  [None] for an optional list argument is the empty list. *)
Definition run_recommendations (seed_artists seed_tracks seed_genres : list string)
    (limit : Z) (exclude_track_ids : list string) (expand_search : bool)
    : state * exc unit :=
  let '(expand, search_limit) :=
    match exclude_track_ids with
    | [] => (expand_search, limit)
    | _ :: _ => (true, (limit * 3)%Z)
    end in
  recommend_body seed_artists seed_tracks seed_genres limit exclude_track_ids
    search_limit expand init_state.

Definition get_recommendations (seed_artists seed_tracks seed_genres : list string)
    (limit : Z) (exclude_track_ids : list string) (expand_search : bool) : result :=
  s_result (fst (run_recommendations seed_artists seed_tracks seed_genres limit
                   exclude_track_ids expand_search)).

(** The helper calls one invocation makes, in order. *)
Definition recommendation_calls (seed_artists seed_tracks seed_genres : list string)
    (limit : Z) (exclude_track_ids : list string) (expand_search : bool) : list call :=
  s_calls (fst (run_recommendations seed_artists seed_tracks seed_genres limit
                  exclude_track_ids expand_search)).

End Orchestrator.

(** ** The engine with its helpers

    What Spotify, Last.fm and the runtime answer, gathered in one record. *)
Record providers := mk_providers {
  p_as_completed : forall A : Type, list A -> list A;
  p_shuffle : list track -> list track;
  p_artist_name_of : string -> string;
  p_similar_artists : string -> Z -> list (string * Z);
  p_lastfm_top_tracks : string -> Z -> list string;
  p_search_tracks : string -> Z -> exc (list track);
  p_fetch_preview : string -> option string;
  p_track_lookup : string -> exc (option (string * string));
  p_similar_tracks : string -> string -> Z -> list (string * string * Z);
  p_genre_based_recs : list string -> list string -> Z -> bool -> exc (list track);
  p_spotify_recs : list string -> list string -> Z -> exc (list track);
  p_fallback_recs : list string -> Z -> bool -> exc (list track)
}.

Definition engine_genre_only (P : providers) : list string -> Z -> bool -> exc (list track) :=
  genre_only_recs (p_search_tracks P) (p_as_completed P) (p_shuffle P).

Definition engine_lastfm (P : providers) (seed_artists seed_tracks : list string)
    (limit : Z) (expand_search : bool) : exc (list track) :=
  lastfm_recs (p_as_completed P) (p_artist_name_of P) (p_similar_artists P)
    (p_lastfm_top_tracks P) (p_search_tracks P) (p_fetch_preview P) (p_track_lookup P)
    (p_similar_tracks P) (p_genre_based_recs P) seed_artists expand_search limit seed_tracks.

(** [RecommendationEngine(token).get_recommendations(...)] *)
Definition engine_recommendations (P : providers) (seed_artists seed_tracks seed_genres : list string)
    (limit : Z) (exclude_track_ids : list string) (expand_search : bool) : result :=
  get_recommendations (engine_genre_only P) (engine_lastfm P) (p_spotify_recs P)
    (p_fallback_recs P) seed_artists seed_tracks seed_genres limit exclude_track_ids
    expand_search.

Definition engine_calls (P : providers) (seed_artists seed_tracks seed_genres : list string)
    (limit : Z) (exclude_track_ids : list string) (expand_search : bool) : list call :=
  recommendation_calls (engine_genre_only P) (engine_lastfm P) (p_spotify_recs P)
    (p_fallback_recs P) seed_artists seed_tracks seed_genres limit exclude_track_ids
    expand_search.

End Engine.

(** ** Spotify helpers of [Back-end/spotify_api.py] *)
Module Spotify.

Local Open Scope string_scope.
Local Set Warnings "-register-all".

(** A JSON value as [requests] decodes it; a dict is an association list
    whose first binding of a key is the one [dict.get] sees. *)
Inductive pyval : Type :=
| PNone
| PBool (b : bool)
| PInt (z : Z)
| PStr (s : string)
| PList (l : list pyval)
| PDict (d : list (string * pyval)).

(** Python truth value of a JSON value. *)
Definition truthy (v : pyval) : bool :=
  match v with
  | PNone => false
  | PBool b => b
  | PInt z => negb (z =? 0)%Z
  | PStr s => truthy_str s
  | PList l => negb (List.length l =? 0)%nat
  | PDict d => negb (List.length d =? 0)%nat
  end.

(** [d.get(k, default)]. *)
Fixpoint py_get (d : list (string * pyval)) (k : string) (default : pyval) : pyval :=
  match d with
  | [] => default
  | (k', v) :: d' => if String.eqb k k' then v else py_get d' k default
  end.

(** [', '.join(names)]: every element must be a [str], else [TypeError]. *)
Fixpoint join_names (names : list pyval) : exc string :=
  match names with
  | [] => Ok ""
  | [PStr s] => Ok s
  | PStr s :: names' =>
      match join_names names' with
      | Ok r => Ok (s ++ ", " ++ r)
      | Raised => Raised
      end
  | _ :: _ => Raised
  end.

Section Normalize.

(** [str(v)] of a value that is neither a string nor handled otherwise; the
    code only ever stores its result, so its rendering is left open. *)
Variable py_str : pyval -> string.

(** An element of [track['artists']] as the list comprehension reads it. *)
Definition artist_entry_name (a : pyval) : pyval :=
  match a with
  | PDict ad => py_get ad "name" (PStr "Unknown Artist")
  | _ => PStr (py_str a)
  end.

(** The [elif track.get('artists'):] branch, given the truthy value. *)
Definition artists_string (artists : pyval) : exc pyval :=
  let artist_names :=
    match artists with
    | PList l => map artist_entry_name l
    | _ => [PStr (py_str artists)]
    end in
  match artist_names with
  | [] => Ok (PStr "Unknown Artist")
  | _ :: _ =>
      match join_names artist_names with
      | Ok s => Ok (PStr s)
      | Raised => Raised
      end
  end.

(** [artist_string] from [track.get('artist')] and [track.get('artists')]. *)
Definition artist_string_of (artist artists : pyval) : exc pyval :=
  if truthy artist then Ok artist
  else if truthy artists then artists_string artists
  else Ok (PStr "Unknown Artist").

(** [image_url] from [track.get('image_url')] and [track.get('album')]:
    [album['images'][0].get('url')] raises unless the images are a list whose
    first element is a dict. *)
Definition image_url_of (image_url album : pyval) : exc pyval :=
  if negb (truthy image_url) && truthy album then
    match album with
    | PDict ad =>
        let images := py_get ad "images" PNone in
        if truthy images then
          match images with
          | PList [] => Ok PNone
          | PList (PDict first :: _) => Ok (py_get first "url" PNone)
          | _ => Raised
          end
        else Ok image_url
    | _ => Ok image_url
    end
  else Ok image_url.

(** [spotify_url] from [track.get('spotify_url')] and
    [track.get('external_urls')]; [.get] raises on anything but a dict. *)
Definition spotify_url_of (spotify_url external_urls : pyval) : exc pyval :=
  if negb (truthy spotify_url) && truthy external_urls then
    match external_urls with
    | PDict e => Ok (py_get e "spotify" PNone)
    | _ => Raised
    end
  else Ok spotify_url.

(** [normalize_track(track)]: [Ok None] is [return None], [Raised] an
    exception; the records fed to it are dicts. *)
Definition normalize_track (track : pyval) : exc (option pyval) :=
  if negb (truthy track) then Ok None else
  match track with
  | PDict d =>
      if negb (truthy (py_get d "id" PNone)) then Ok None else
      match artist_string_of (py_get d "artist" PNone) (py_get d "artists" PNone) with
      | Raised => Raised
      | Ok artist_string =>
          match image_url_of (py_get d "image_url" PNone) (py_get d "album" PNone) with
          | Raised => Raised
          | Ok image_url =>
              match spotify_url_of (py_get d "spotify_url" PNone)
                      (py_get d "external_urls" PNone) with
              | Raised => Raised
              | Ok spotify_url =>
                  let preview_url := py_get d "preview_url" PNone in
                  Ok (Some (PDict [
                    ("id", py_get d "id" PNone);
                    ("name", py_get d "name" (PStr "Unknown Track"));
                    ("artist", artist_string);
                    ("artists", py_get d "artists" (PList []));
                    ("album", py_get d "album" (PDict []));
                    ("image_url", image_url);
                    ("preview_url", preview_url);
                    ("spotify_url", spotify_url);
                    ("external_urls", py_get d "external_urls" (PDict []));
                    ("popularity", py_get d "popularity" (PInt 0))]))
              end
          end
      end
  | _ => Raised
  end.

End Normalize.

(** [int(v)] for a header value [v].  [http.client] decodes header lines as
    ISO-8859-1, so each byte of [v] is one character, its code point the
    byte.  CPython 3.11 turns every non-ASCII [Py_UNICODE_ISSPACE] character
    into a space and every non-ASCII decimal digit into its ASCII digit
    (there is none below U+0100), then parses base 10: leading and trailing
    ASCII whitespace, one sign, digits with single underscores between them,
    and at most 4300 digits; anything else is a [ValueError] ([None]). *)
Definition int_space (c : Z) : bool :=
  if (c <? 128)%Z then (c =? 32)%Z || ((9 <=? c)%Z && (c <=? 13)%Z) else py_isspace c.

Definition digit_value (c : Z) : option Z :=
  if (48 <=? c)%Z && (c <=? 57)%Z then Some (c - 48)%Z else None.

(** The value and the number of digits read. *)
Fixpoint int_digits (cs : list Z) (acc : Z) (ndigits : nat) (after_digit : bool)
    : option (Z * nat) :=
  match cs with
  | [] => if after_digit then Some (acc, ndigits) else None
  | c :: cs' =>
      match digit_value c with
      | Some d => int_digits cs' (acc * 10 + d)%Z (S ndigits) true
      | None =>
          if (c =? 95)%Z && after_digit then int_digits cs' acc ndigits false
          else None
      end
  end.

Definition py_int (s : string) : option Z :=
  let cs := strip_by int_space (map byte_val (list_ascii_of_string s)) in
  let parsed :=
    match cs with
    | 45%Z :: ds => option_map (fun r => (Z.opp (fst r), snd r)) (int_digits ds 0 0 false)
    | 43%Z :: ds => int_digits ds 0 0 false
    | ds => int_digits ds 0 0 false
    end in
  match parsed with
  | Some (v, n) => if (n <=? 4300)%nat then Some v else None
  | None => None
  end.

(** [int(response.headers.get('Retry-After', 60))]. *)
Definition retry_after_of (hdr : option string) : option Z :=
  match hdr with
  | None => Some 60%Z
  | Some v => py_int v
  end.

(** [time.sleep(secs)] for an int accepts [0 <= secs] as long as
    [secs * 10^9] fits in the signed 64-bit nanosecond count; otherwise it
    raises ([ValueError] below 0, [OverflowError] above). *)
Definition sleep_ok (secs : Z) : bool := (0 <=? secs)%Z && (secs <=? 9223372036)%Z.

(** What one [requests.get] call produces: a response (status code and
    [Retry-After] header, if any), or one of the two exceptions caught. *)
Inductive outcome : Type :=
| Response (status_code : Z) (retry_after : option string)
| Timeout
| RequestError.

(** The loop [for attempt in range(max_retries)] of [_make_spotify_request];
    [send attempt] is what the request of that attempt produced.  The result
    pairs the [time.sleep] arguments that returned, in order, with the
    returned value ([Ok None] for [None]) or [Raised] for an exception that
    escapes: [int()] failing on the header, or [time.sleep] refusing its
    argument (also inside an [except] clause, where nothing catches it). *)
Fixpoint request_loop (send : nat -> outcome) (max_retries : Z) (attempt remaining : nat)
    (sleeps : list Z) : list Z * exc (option outcome) :=
  match remaining with
  | O => (sleeps, Ok None)
  | S remaining' =>
      match send attempt with
      | Response code hdr =>
          if (code =? 429)%Z then
            match retry_after_of hdr with
            | None => (sleeps, Raised)
            | Some retry_after =>
                if negb (sleep_ok retry_after) then (sleeps, Raised)
                else request_loop send max_retries (S attempt) remaining'
                       (sleeps ++ [retry_after])
            end
          else (sleeps, Ok (Some (Response code hdr)))
      | Timeout | RequestError =>
          if (Z.of_nat attempt <? max_retries - 1)%Z then
            let wait_time := Z.pow 2 (Z.of_nat attempt) in
            if negb (sleep_ok wait_time) then (sleeps, Raised)
            else request_loop send max_retries (S attempt) remaining' (sleeps ++ [wait_time])
          else (sleeps, Ok None)
      end
  end.

Definition make_spotify_request (send : nat -> outcome) (max_retries : Z)
    : list Z * exc (option outcome) :=
  request_loop send max_retries 0 (Z.to_nat max_retries) [].

End Spotify.

(** ** List helpers of [Back-end/spotify_api.py] over raw JSON tracks *)
Module SpotifyLists.
Import Spotify.

Local Open Scope string_scope.

(** [map] through a function that may raise, stopping at the first
    exception, as a Python loop or list comprehension does. *)
Fixpoint map_exc {A B} (f : A -> exc B) (l : list A) : exc (list B) :=
  match l with
  | [] => Ok []
  | x :: xs =>
      match f x with
      | Raised => Raised
      | Ok y => match map_exc f xs with Ok ys => Ok (y :: ys) | Raised => Raised end
      end
  end.

(** [for x in v]: a list yields its items, a dict its keys, a string its
    characters; [None], numbers and booleans are not iterable. *)
Definition py_iter (v : pyval) : exc (list pyval) :=
  match v with
  | PList l => Ok l
  | PDict d => Ok (map (fun kv => PStr (fst kv)) d)
  | PStr s => Ok (map (fun c => PStr (String c EmptyString)) (list_ascii_of_string s))
  | _ => Raised
  end.

(** [[artist.get('id') for artist in track.get('artists', [])]]: an element
    that is not a dict has no [.get]. *)
Definition track_artist_ids (d : list (string * pyval)) : exc (list pyval) :=
  match py_iter (py_get d "artists" (PList [])) with
  | Raised => Raised
  | Ok artists =>
      map_exc (fun a => match a with
                        | PDict ad => Ok (py_get ad "id" PNone)
                        | _ => Raised
                        end) artists
  end.

(** [any(aid in exclude_set for aid in track_artist_ids)] for a set of
    strings: only an equal string is a member, and a list or dict is
    unhashable ([TypeError]); [any] stops at the first hit. *)
Fixpoint any_excluded (exclude_set : list string) (aids : list pyval) : exc bool :=
  match aids with
  | [] => Ok false
  | PStr s :: rest => if mem s exclude_set then Ok true else any_excluded exclude_set rest
  | PList _ :: _ | PDict _ :: _ => Raised
  | _ :: rest => any_excluded exclude_set rest
  end.

(** The loop of [filter_tracks_by_artists]. *)
Fixpoint filter_loop (exclude_set : list string) (tracks : list pyval) : exc (list pyval) :=
  match tracks with
  | [] => Ok []
  | track :: rest =>
      match track with
      | PDict d =>
          match track_artist_ids d with
          | Raised => Raised
          | Ok aids =>
              match any_excluded exclude_set aids with
              | Raised => Raised
              | Ok true => filter_loop exclude_set rest
              | Ok false =>
                  match filter_loop exclude_set rest with
                  | Ok kept => Ok (track :: kept)
                  | Raised => Raised
                  end
              end
          end
      | _ => Raised
      end
  end.

(** [filter_tracks_by_artists(tracks, exclude_artist_ids)] *)
Definition filter_tracks_by_artists (tracks : list pyval) (exclude_artist_ids : list string)
    : exc (list pyval) :=
  match exclude_artist_ids with
  | [] => Ok tracks
  | _ :: _ => filter_loop exclude_artist_ids tracks
  end.

(** What a Python set compares an id by: strings by value, numbers by value
    with [True == 1]; [None] is hashable too. *)
Inductive hkey : Type :=
| KNone
| KStr (s : string)
| KNum (z : Z).

Definition hkey_eq_dec (a b : hkey) : {a = b} + {a <> b}.
Proof. decide equality; [apply string_dec | apply Z.eq_dec]. Defined.

Definition hkey_mem (k : hkey) (ks : list hkey) : bool :=
  existsb (fun k' => if hkey_eq_dec k k' then true else false) ks.

(** The key of a value put in a set; lists and dicts are unhashable. *)
Definition id_key (v : pyval) : exc hkey :=
  match v with
  | PNone => Ok KNone
  | PBool b => Ok (KNum (if b then 1 else 0)%Z)
  | PInt z => Ok (KNum z)
  | PStr s => Ok (KStr s)
  | PList _ | PDict _ => Raised
  end.

(** The loop of [_deduplicate_tracks], with [seen_ids] as a list of keys. *)
Fixpoint dedup_loop (seen_ids : list hkey) (tracks : list pyval) : exc (list pyval) :=
  match tracks with
  | [] => Ok []
  | track :: rest =>
      match track with
      | PDict d =>
          let track_id := py_get d "id" PNone in
          if truthy track_id then
            match id_key track_id with
            | Raised => Raised
            | Ok k =>
                if hkey_mem k seen_ids then dedup_loop seen_ids rest
                else
                  match dedup_loop (seen_ids ++ [k]) rest with
                  | Ok unique => Ok (track :: unique)
                  | Raised => Raised
                  end
            end
          else dedup_loop seen_ids rest
      | _ => Raised
      end
  end.

(** [_deduplicate_tracks(tracks)] *)
Definition deduplicate_tracks (tracks : list pyval) : exc (list pyval) :=
  dedup_loop [] tracks.

(** A track [filter_tracks_by_artists] keeps for [exclude_set]. *)
Definition free_of (exclude_set : list string) (t : pyval) : Prop :=
  exists d aids, t = PDict d /\ track_artist_ids d = Ok aids
    /\ any_excluded exclude_set aids = Ok false.

(** [track.get('id')] is truthy. *)
Definition has_truthy_id (t : pyval) : bool :=
  match t with
  | PDict d => truthy (py_get d "id" PNone)
  | _ => false
  end.

(** The set key of [track.get('id')]. *)
Definition track_key (t : pyval) : exc hkey :=
  match t with
  | PDict d => id_key (py_get d "id" PNone)
  | _ => Raised
  end.

(** No track occurs twice, and no two tracks have ids equal as set keys. *)
Definition keys_distinct (ts : list pyval) : Prop :=
  NoDup ts /\ forall t1 t2 k, In t1 ts -> In t2 ts ->
    track_key t1 = Ok k -> track_key t2 = Ok k -> t1 = t2.

(** What [dedup_loop seen_ids] keeps: tracks with truthy ids whose keys are
    new, in order. *)
Fixpoint unique_run (seen_ids : list hkey) (ts : list pyval) : Prop :=
  match ts with
  | [] => True
  | t :: rest =>
      has_truthy_id t = true /\
      exists k, track_key t = Ok k /\ hkey_mem k seen_ids = false
                /\ unique_run (seen_ids ++ [k]) rest
  end.

Section Search.

Variable py_str : pyval -> string.

(** [for track in items: normalized = normalize_track(track); if normalized:
    tracks.append(normalized)]; an exception of [normalize_track] is not a
    [RequestException] and escapes. *)
Fixpoint normalize_items (items : list pyval) : exc (list pyval) :=
  match items with
  | [] => Ok []
  | item :: rest =>
      match normalize_track py_str item with
      | Raised => Raised
      | Ok normalized =>
          match normalize_items rest with
          | Raised => Raised
          | Ok tracks =>
              match normalized with
              | Some n => if truthy n then Ok (n :: tracks) else Ok tracks
              | None => Ok tracks
              end
          end
      end
  end.

(** [search_tracks(access_token, query, limit)].  [http q l] is the decoded
    JSON body of the search request for query [q] with [params['limit'] = l],
    or [None] when [requests] raised a [RequestException] (a failed request,
    [raise_for_status()] or an undecodable body), which returns [[]]. *)
Definition search_tracks (http : string -> Z -> option pyval) (query : string) (limit : Z)
    : exc (list pyval) :=
  match http query (Z.min limit 50) with
  | None => Ok []
  | Some (PDict data) =>
      match py_get data "tracks" (PDict []) with
      | PDict tracks_obj =>
          match py_iter (py_get tracks_obj "items" (PList [])) with
          | Raised => Raised
          | Ok items => normalize_items items
          end
      | _ => Raised
      end
  | Some _ => Raised
  end.

End Search.

Section SmartFinish.

(** [random.shuffle] *)
Variable shuffle : list pyval -> list pyval.

(** The end of [get_recommendations_from_artists_and_genres], from the
    gathered [all_tracks]: drop the seed artists' tracks, deduplicate,
    shuffle and cut to [limit]; an exception is caught by the outer
    [except Exception] and gives [[]]. *)
Definition smart_finish (seed_artists : list string) (limit : Z) (all_tracks : list pyval)
    : list pyval :=
  let filtered :=
    match seed_artists with
    | [] => Ok all_tracks
    | _ :: _ => filter_tracks_by_artists all_tracks seed_artists
    end in
  match filtered with
  | Raised => []
  | Ok ts =>
      match deduplicate_tracks ts with
      | Raised => []
      | Ok unique_tracks => py_take limit (shuffle unique_tracks)
      end
  end.

End SmartFinish.

End SpotifyLists.

(** ** The Last.fm tag step and the Spotify fallback of the engine *)
Module EngineHelpers.
Import Engine.

Local Open Scope string_scope.

(** [f'genre:"{genre}" year:2020-2024'] *)
Definition dquote : string := String (ascii_of_nat 34) EmptyString.

Definition genre_query (genre : string) : string :=
  "genre:" ++ dquote ++ genre ++ dquote ++ " year:2020-2024".

(** [['seen live', 'favorites', 'favourite', 'seen', 'live', 'my music']] *)
Definition tag_blacklist : list string :=
  ["seen live"; "favorites"; "favourite"; "seen"; "live"; "my music"].

(** [if tag_name and tag_name not in [...]] *)
Definition genre_tag (tag_name : string) : bool :=
  truthy_str tag_name && negb (mem tag_name tag_blacklist).

Section GenreBased.

Variable as_completed : forall A : Type, list A -> list A.
(** [list(set(xs))]: the distinct elements in the set's iteration order. *)
Variable set_list : list string -> list string.
(** [[tag.get('name', '') for tag in get_artist_tags(name, limit=n)]], or an
    exception (a name that is not a string has no [.lower()]). *)
Variable artist_tag_names : string -> Z -> exc (list string).
(** [[a.get('name', '') for a in get_tag_top_artists(tag, limit=n)]], or an
    exception. *)
Variable tag_top_artists : string -> Z -> exc (list string).
(** [[t.get('name', '') for t in get_lastfm_top_tracks(name, limit=n)]] *)
Variable lastfm_top_tracks : string -> Z -> list string.
Variable search_tracks : string -> Z -> exc (list track).
Variable seed_artists : list string.
Variable expand_search : bool.

(** [for artist_name in artists_to_check: tags = get_artist_tags(...)]: no
    [try] around it, so an exception leaves the method. *)
Fixpoint collect_tags (artist_names : list string) : exc (list string) :=
  match artist_names with
  | [] => Ok []
  | a :: rest =>
      match artist_tag_names a (if expand_search then 8%Z else 5%Z) with
      | Raised => Raised
      | Ok tags =>
          match collect_tags rest with
          | Raised => Raised
          | Ok more => Ok (app (filter genre_tag (map py_lower tags)) more)
          end
      end
  end.

(** [for track_info in lastfm_tracks:] in [get_tracks_from_genre_artist]:
    the first Spotify hit with an id and no seed artist, then [break]. *)
Fixpoint genre_artist_tracks (artist_name : string) (track_names : list string)
    (tracks : list track) : exc (list track) :=
  match track_names with
  | [] => Ok tracks
  | track_name :: rest =>
      if negb (truthy_str track_name) then genre_artist_tracks artist_name rest tracks
      else
        match search_tracks (track_name ++ " " ++ artist_name) 2 with
        | Raised => Raised
        | Ok spotify_tracks =>
            match first_admissible seed_artists spotify_tracks with
            | Some t => genre_artist_tracks artist_name rest (app tracks [t])
            | None => genre_artist_tracks artist_name rest tracks
            end
        end
  end.

(** [get_tracks_from_genre_artist(artist_info)]: its [except] returns [[]]. *)
Definition get_tracks_from_genre_artist (artist_name : string) : list track :=
  if negb (truthy_str artist_name) then []
  else
    match genre_artist_tracks artist_name
            (lastfm_top_tracks artist_name (if expand_search then 5%Z else 3%Z)) [] with
    | Ok tracks => tracks
    | Raised => []
    end.

(** [process_genre(tag)] *)
Definition process_genre (tag : string) : list track :=
  match tag_top_artists tag (if expand_search then 20%Z else 10%Z) with
  | Raised => []
  | Ok top_artists =>
      let artists_to_use := firstn (if expand_search then 10 else 5) top_artists in
      concat (as_completed _ (map get_tracks_from_genre_artist artists_to_use))
  end.

(** [self._get_genre_based_recommendations(artist_names, seed_artists, limit,
    expand_search)] *)
Definition genre_based_recommendations (artist_names : list string) (limit : Z)
    : exc (list track) :=
  let artists_to_check := firstn (if expand_search then 3 else 2) artist_names in
  match collect_tags artists_to_check with
  | Raised => Raised
  | Ok all_tags =>
      match firstn (if expand_search then 5 else 3) (set_list all_tags) with
      | [] => Ok []
      | unique_tags =>
          Ok (snd (merge_batches_capped limit [] []
                     (as_completed _ (map process_genre unique_tags))))
      end
  end.

End GenreBased.

Section Fallback.

Variable set_list : list string -> list string.
(** [get_artist_genres(token, artist_id)], or an exception. *)
Variable artist_genres : string -> exc (list string).
Variable search_tracks : string -> Z -> exc (list track).
Variable seed_artists : list string.
Variable expand_search : bool.

(** [for artist_id in artists_to_check: try: ... except: pass] *)
Fixpoint collect_genres (artist_ids : list string) : list string :=
  match artist_ids with
  | [] => []
  | a :: rest =>
      app (match artist_genres a with
           | Ok g => firstn (if expand_search then 3 else 2) g
           | Raised => []
           end) (collect_genres rest)
  end.

(** [for track in tracks:] of one genre: a new id with no seed artist is
    kept, and [break] once [limit] is reached. *)
Fixpoint fallback_take (limit : Z) (seen : list string) (recs : list track)
    (ts : list track) : list string * list track :=
  match ts with
  | [] => (seen, recs)
  | t :: rest =>
      if truthy_str (t_id t) && negb (mem (t_id t) seen) && no_seed_artist seed_artists t then
        let seen' := app seen [t_id t] in
        let recs' := app recs [t] in
        if (limit <=? Z.of_nat (length recs'))%Z then (seen', recs')
        else fallback_take limit seen' recs' rest
      else fallback_take limit seen recs rest
  end.

(** [for genre in genres: if len(recommendations) >= limit: break; try: ...] *)
Fixpoint fallback_genres (limit : Z) (genres : list string) (seen : list string)
    (recs : list track) : list track :=
  match genres with
  | [] => recs
  | g :: gs =>
      if (limit <=? Z.of_nat (length recs))%Z then recs
      else
        match search_tracks (genre_query g) (if expand_search then 40%Z else 20%Z) with
        | Raised => fallback_genres limit gs seen recs
        | Ok ts =>
            let '(seen', recs') := fallback_take limit seen recs ts in
            fallback_genres limit gs seen' recs'
        end
  end.

(** [self._get_spotify_fallback_recommendations(seed_artists, limit,
    expand_search)] *)
Definition spotify_fallback_recommendations (limit : Z) : list track :=
  let artists_to_check := firstn (if expand_search then 3 else 2) seed_artists in
  let genres := firstn (if expand_search then 5 else 3)
                  (set_list (collect_genres artists_to_check)) in
  fallback_genres limit genres [] [].

End Fallback.

(** A track the engine may add: a truthy id and no seed artist. *)
Definition admissible (seed_artists : list string) (t : track) : Prop :=
  truthy_str (t_id t) = true /\ no_seed_artist seed_artists t = true.

End EngineHelpers.

(** ** Concrete provider answers used to evaluate the engine *)
Module Scenarios.
Import Engine.
Local Open Scope string_scope.

Definition trk (id : string) (artist_ids : list string) : track :=
  mk_track id artist_ids None (Some "https://p.scdn.co/mp3-preview/x"%string).

(** Futures complete in submission order and the shuffle keeps the order. *)
Definition in_order : forall A : Type, list A -> list A := fun _ l => l.

(** Seed artist [A1] is Adele.  Last.fm knows no similar artist and no tag
    for her, but for her seed track [T1] ("Hello") it lists another track of
    hers as similar, and Spotify's search finds it. *)
Definition similar_tracks_scenario : providers :=
  mk_providers in_order (fun l => l)
    (fun aid => if String.eqb aid "A1" then "Adele" else "")
    (fun _ _ => []) (fun _ _ => [])
    (fun q _ => if String.eqb q "Someone Like You Adele" then Ok [trk "t1" ["A1"]] else Ok [])
    (fun _ => None)
    (fun tid => if String.eqb tid "T1" then Ok (Some ("Hello", "Adele")) else Ok None)
    (fun n _ _ => if String.eqb n "Hello" then [("Someone Like You", "Adele", 90%Z)] else [])
    (fun _ _ _ _ => Ok []) (fun _ _ _ => Ok []) (fun _ _ _ => Ok [])%string.

(** Same seed artist with a seed genre: Last.fm yields nothing and Spotify's
    recommendations endpoint returns one of Adele's own tracks. *)
Definition spotify_topup_scenario : providers :=
  mk_providers in_order (fun l => l)
    (fun aid => if String.eqb aid "A1" then "Adele" else "")
    (fun _ _ => []) (fun _ _ => []) (fun _ _ => Ok []) (fun _ => None)
    (fun _ => Ok None) (fun _ _ _ => [])
    (fun _ _ _ _ => Ok []) (fun _ _ _ => Ok [trk "t2" ["A1"]]) (fun _ _ _ => Ok [])%string.

(** A genre-only request: Spotify's search for "jazz" finds one track. *)
Definition jazz_scenario : providers :=
  mk_providers in_order (fun l => l) (fun _ => "")
    (fun _ _ => []) (fun _ _ => [])
    (fun q _ => if String.eqb q "jazz" then Ok [trk "j1" ["X1"]] else Ok [])
    (fun _ => None) (fun _ => Ok None) (fun _ _ _ => [])
    (fun _ _ _ _ => Ok []) (fun _ _ _ => Ok []) (fun _ _ _ => Ok [])%string.

(** Two seed artists, Adele ([A]) and Beyonce ([B]); Last.fm lists Beyonce
    as similar to Adele, and searching Beyonce's "Halo" finds a cover by a
    third artist. *)
Definition two_seeds_scenario : providers :=
  mk_providers in_order (fun l => l)
    (fun aid => if String.eqb aid "A" then "Adele" else if String.eqb aid "B" then "Beyonce" else "")
    (fun n _ => if String.eqb n "Adele" then [("Beyonce", 90%Z)] else [])
    (fun n _ => if String.eqb n "Beyonce" then ["Halo"] else [])
    (fun q _ => if String.eqb q "Halo Beyonce" then Ok [trk "c1" ["X9"]] else Ok [])
    (fun _ => None) (fun _ => Ok None) (fun _ _ _ => [])
    (fun _ _ _ _ => Ok []) (fun _ _ _ => Ok []) (fun _ _ _ => Ok [])%string.

End Scenarios.

(** * Proofs about the engine *)
Module EngineFacts.
Import Engine.

Lemma firstn_In_l {A} k (l : list A) x : In x (firstn k l) -> In x l.
Proof.
  revert l; induction k as [|k IH]; intros [|y l]; simpl; try tauto.
  intros [H|H]; [auto|right; auto].
Qed.

Lemma py_take_In {A} (n : Z) (l : list A) x : In x (py_take n l) -> In x l.
Proof. unfold py_take; destruct (0 <=? n)%Z; apply firstn_In_l. Qed.

Lemma py_take_nil {A} (n : Z) : py_take n (@nil A) = [].
Proof. unfold py_take; destruct (0 <=? n)%Z; apply firstn_nil. Qed.

Lemma py_take_length_le {A} (n : Z) (l : list A) :
  (0 <= n)%Z -> (Z.of_nat (length (py_take n l)) <= n)%Z.
Proof.
  intros Hn; unfold py_take; apply Z.leb_le in Hn as Hb; rewrite Hb.
  pose proof (firstn_le_length (Z.to_nat n) l); lia.
Qed.

Lemma py_take_id {A} (n : Z) (l : list A) :
  (Z.of_nat (length l) <= n)%Z -> py_take n l = l.
Proof.
  intros Hn; unfold py_take.
  replace (0 <=? n)%Z with true by (symmetry; apply Z.leb_le; lia).
  apply firstn_all2; lia.
Qed.

Lemma mem_false_notin x l : mem x l = false -> ~ In x l.
Proof.
  unfold mem; intros H Hin.
  assert (existsb (String.eqb x) l = true) as H'.
  { apply existsb_exists; exists x; split; [exact Hin|apply String.eqb_refl]. }
  congruence.
Qed.

Lemma merge_new_In E ex acc inc x :
  In x (merge_new E ex acc inc) -> In x acc \/ (In x inc /\ not_excluded E x = true).
Proof.
  revert ex acc; induction inc as [|t inc IH]; simpl; intros ex acc H; [auto|].
  destruct (truthy_str (t_id t) && negb (mem (t_id t) ex) && negb (mem (t_id t) E)) eqn:Hc.
  - apply IH in H as [H|[H1 H2]]; [|auto].
    apply in_app_or in H as [H|[<-|[]]]; [auto|].
    right; split; [auto|]. unfold not_excluded. apply andb_true_iff in Hc as [_ Hc]. exact Hc.
  - apply IH in H as [H|[H1 H2]]; auto.
Qed.

(** Ids-without-duplicates facts. *)
Definition ids_nodup (l : list track) : Prop := NoDup (map t_id l).

Lemma nodup_filter p l : ids_nodup l -> ids_nodup (filter p l).
Proof.
  unfold ids_nodup; induction l as [|t l IH]; simpl; intros H; [constructor|].
  inversion H as [|? ? Hn Hd]; subst.
  destruct (p t); simpl; [constructor|]; auto.
  intros Hin; apply Hn. apply in_map_iff in Hin as (u & Hu & Hin).
  apply filter_In in Hin as [Hin _]. rewrite <- Hu; apply in_map; exact Hin.
Qed.

Lemma nodup_firstn k l : ids_nodup l -> ids_nodup (firstn k l).
Proof.
  unfold ids_nodup; intros H. rewrite <- (firstn_skipn k l), map_app in H.
  eapply NoDup_app_remove_r; exact H.
Qed.

Lemma nodup_py_take n l : ids_nodup l -> ids_nodup (py_take n l).
Proof. unfold py_take; destruct (0 <=? n)%Z; apply nodup_firstn. Qed.

Lemma nodup_perm l l' : Permutation l l' -> ids_nodup l' -> ids_nodup l.
Proof.
  unfold ids_nodup; intros Hp H. eapply Permutation_NoDup; [|exact H].
  apply Permutation_map; symmetry; exact Hp.
Qed.

Lemma nodup_snoc l t : ids_nodup l -> ~ In (t_id t) (map t_id l) -> ids_nodup (l ++ [t]).
Proof.
  unfold ids_nodup; intros H Hn; rewrite map_app; simpl.
  apply NoDup_app; [exact H|repeat constructor; auto|].
  intros x Hx [<-|[]]; contradiction.
Qed.

Lemma merge_new_nodup E acc inc :
  ids_nodup acc -> ids_nodup (merge_new E (map t_id acc) acc inc).
Proof.
  revert acc; induction inc as [|t inc IH]; simpl; intros acc H; [exact H|].
  destruct (truthy_str (t_id t) && negb (mem (t_id t) (map t_id acc)) && negb (mem (t_id t) E)) eqn:Hc.
  - replace (map t_id acc ++ [t_id t]) with (map t_id (acc ++ [t])) by (rewrite map_app; reflexivity).
    apply IH, nodup_snoc; [exact H|].
    apply andb_true_iff in Hc as [Hc _]; apply andb_true_iff in Hc as [_ Hc].
    apply negb_true_iff in Hc; apply mem_false_notin; exact Hc.
  - apply IH; exact H.
Qed.

Ltac run_case :=
  repeat (match goal with
  | |- context [match ?e with | Ok _ => _ | Raised => _ end] => destruct e eqn:?
  | |- context [if ?b then _ else _] => destruct b eqn:?
  end; simpl in * ).

Ltac unfold_run :=
  unfold get_recommendations, recommendation_calls, run_recommendations, recommend_body,
    truncate, bind, get_tracks, set_tracks, set_lastfm, set_spotify, call_helper, ret; simpl.

Ltac split_bools :=
  unfold len_lt in *;
  repeat match goal with
  | H : (_ && _) = true |- _ => apply andb_true_iff in H as [? ?]
  end;
  rewrite ?Z.ltb_lt, ?Z.ltb_ge in *.

Ltac chase_in :=
  repeat match goal with
  | H : In _ (py_take _ _) |- _ => apply py_take_In in H
  | H : In _ (filter _ _) |- _ => apply filter_In in H as [_ H]; exact H
  | H : In _ (merge_new _ _ _ _) |- _ => apply merge_new_In in H as [H|[_ H]]; [|exact H]
  end; try contradiction.

Lemma tracks_not_excluded go lf sr fb sa st sg limit E ex t :
  In t (r_tracks (get_recommendations go lf sr fb sa st sg limit E ex)) -> not_excluded E t = true.
Proof.
  unfold_run; destruct E as [|e E']; simpl; unfold_run; run_case; intros H; chase_in.
Qed.

(** C5 (amended): for every non-negative [limit], [len(result['tracks']) <= limit], also when a
    helper raises and the tracks accumulated so far are returned. *)
Theorem bound_respected go lf sr fb sa st sg limit E ex :
  (0 <= limit)%Z ->
  (Z.of_nat (length (r_tracks (get_recommendations go lf sr fb sa st sg limit E ex))) <= limit)%Z.
Proof.
  intros Hl; unfold_run; destruct E as [|e E']; simpl; unfold_run; run_case; split_bools;
  try (apply py_take_length_le; exact Hl); simpl; lia.
Qed.

(** C9: in regeneration mode (non-empty [exclude_track_ids]) every helper call gets
    [expand_search = True] (or has no such parameter) and a limit derived from
    [limit * 3] (exactly [limit * 3] for the candidate-gathering call, made while
    nothing is held yet, and [limit * 3] minus the tracks held for the top-ups); the
    result is the truncation to [limit] of a list free of excluded ids. *)
Theorem regeneration_mode go lf sr fb sa st sg limit E ex :
  E <> [] ->
  (forall c, In c (recommendation_calls go lf sr fb sa st sg limit E ex) ->
     c_limit c = (limit * 3 - Z.of_nat (c_held c))%Z /\ c_expand c <> Some false /\
     ((c_helper c = HGenreOnly \/ c_helper c = HLastfm) -> c_held c = 0%nat)) /\
  (exists pre, r_tracks (get_recommendations go lf sr fb sa st sg limit E ex) = py_take limit pre /\
     forall t, In t pre -> not_excluded E t = true).
Proof.
  intros HE; destruct E as [|e E']; [congruence|]; unfold_run; run_case; split_bools.
  all: split; [intros c Hc|].
  all: try (repeat (destruct Hc as [<-|Hc];
              [simpl; split; [lia|split; [discriminate|intros Hh; first [reflexivity|destruct Hh; discriminate]]]|]);
            contradiction).
  all: first
    [ exists []; split; [symmetry; apply py_take_nil|intros ? []]
    | eexists; split; [reflexivity|intros ? Hin; chase_in]
    | eexists; split; [symmetry; apply py_take_id; apply Z.lt_le_incl; assumption
                      |intros ? Hin; chase_in] ].
Qed.

Lemma dedup_orchestrator go lf sr fb sa st sg limit E ex :
  (forall a b c l, go a b c = Ok l -> ids_nodup l) ->
  (forall a b c d l, lf a b c d = Ok l -> ids_nodup l) ->
  ids_nodup (r_tracks (get_recommendations go lf sr fb sa st sg limit E ex)).
Proof.
  intros Hgo Hlf; unfold_run; destruct E as [|e E']; simpl; unfold_run; run_case;
  repeat match goal with
  | |- ids_nodup (py_take _ _) => apply nodup_py_take
  | |- ids_nodup (filter _ _) => apply nodup_filter
  | |- ids_nodup (merge_new _ _ _ _) => apply merge_new_nodup
  | H : go _ _ _ = Ok ?l |- ids_nodup ?l => eapply Hgo; exact H
  | H : lf _ _ _ _ = Ok ?l |- ids_nodup ?l => eapply Hlf; exact H
  | |- ids_nodup [] => constructor
  end.
Qed.

Definition inv (seen : list string) (recs : list track) : Prop :=
  seen = map t_id recs /\ NoDup seen.

Lemma inv_nil : inv [] [].
Proof. split; [reflexivity|constructor]. Qed.

Lemma inv_snoc seen recs t i :
  inv seen recs -> mem i seen = false -> t_id t = i -> inv (seen ++ [i]) (recs ++ [t]).
Proof.
  intros [-> Hn] Hm <-; split; [rewrite map_app; reflexivity|].
  replace (map t_id recs ++ [t_id t]) with (map t_id (recs ++ [t])) by (rewrite map_app; reflexivity).
  apply nodup_snoc; [exact Hn|apply mem_false_notin; exact Hm].
Qed.

Lemma inv_nodup seen recs : inv seen recs -> ids_nodup recs.
Proof. intros [-> H]; exact H. Qed.

Lemma take_new_capped_inv limit seen recs ts :
  inv seen recs ->
  inv (fst (take_new_capped limit seen recs ts)) (snd (take_new_capped limit seen recs ts)).
Proof.
  revert seen recs; induction ts as [|t ts IH]; simpl; intros seen recs H; [exact H|].
  destruct (truthy_str (t_id t) && negb (mem (t_id t) seen)) eqn:Hc; [|apply IH; exact H].
  apply andb_true_iff in Hc as [_ Hc]; apply negb_true_iff in Hc.
  assert (Hi : inv (seen ++ [t_id t]) (recs ++ [t])) by (apply inv_snoc; auto).
  destruct (limit <=? Z.of_nat (length (recs ++ [t])))%Z; [exact Hi|apply IH; exact Hi].
Qed.

Lemma merge_batches_capped_inv limit seen recs bs :
  inv seen recs ->
  inv (fst (merge_batches_capped limit seen recs bs)) (snd (merge_batches_capped limit seen recs bs)).
Proof.
  revert seen recs; induction bs as [|b bs IH]; simpl; intros seen recs H; [exact H|].
  pose proof (take_new_capped_inv limit seen recs b H) as Hb.
  destruct (take_new_capped limit seen recs b) as [s' r'].
  destruct (limit <=? Z.of_nat (length r'))%Z; [exact Hb|apply IH; exact Hb].
Qed.

Lemma add_new_inv seen recs ts :
  inv seen recs -> inv (fst (add_new seen recs ts)) (snd (add_new seen recs ts)).
Proof.
  revert seen recs; induction ts as [|t ts IH]; simpl; intros seen recs H; [exact H|].
  destruct (truthy_str (t_id t) && negb (mem (t_id t) seen)) eqn:Hc; apply IH; [|exact H].
  apply andb_true_iff in Hc as [_ Hc]; apply negb_true_iff in Hc.
  apply inv_snoc; auto.
Qed.

Lemma insert_desc_perm {A} (key : A -> Z) x l : Permutation (insert_desc key x l) (x :: l).
Proof.
  induction l as [|y l IH]; simpl; [reflexivity|].
  destruct (key y <? key x)%Z; [reflexivity|].
  rewrite IH; apply perm_swap.
Qed.

Lemma sort_desc_perm {A} (key : A -> Z) l : Permutation (sort_desc key l) l.
Proof.
  unfold sort_desc.
  assert (forall acc, Permutation (fold_left (fun acc x => insert_desc key x acc) l acc) (l ++ acc))
    as H.
  { induction l as [|x l IH]; simpl; intros acc; [reflexivity|].
    rewrite IH, insert_desc_perm. symmetry; apply Permutation_middle. }
  rewrite H, app_nil_r; reflexivity.
Qed.

Lemma genre_only_nodup search ac shuffle sg limit ex l :
  (forall l, Permutation (shuffle l) l) ->
  genre_only_recs search ac shuffle sg limit ex = Ok l -> ids_nodup l.
Proof.
  intros Hsh H; unfold genre_only_recs in H.
  match type of H with Ok (py_take _ (shuffle ?r)) = _ => assert (Hr : ids_nodup r) end.
  { destruct (map normalize_genre (firstn 5 sg)); [constructor|].
    eapply inv_nodup, merge_batches_capped_inv, inv_nil. }
  injection H as <-. apply nodup_py_take. eapply nodup_perm; [apply Hsh|exact Hr].
Qed.

Section LastfmNodup.
Variables (as_completed : forall A : Type, list A -> list A) (artist_name_of : string -> string)
  (similar_artists : string -> Z -> list (string * Z)) (lastfm_top_tracks : string -> Z -> list string)
  (search_tracks : string -> Z -> exc (list track)) (fetch_preview : string -> option string)
  (track_lookup : string -> exc (option (string * string)))
  (similar_tracks : string -> string -> Z -> list (string * string * Z))
  (genre_based_recs : list string -> list string -> Z -> bool -> exc (list track))
  (seed_artists : list string) (expand_search : bool) (limit : Z).

Lemma first_new_inv m seen recs ts :
  inv seen recs -> inv (fst (first_new m seen recs ts)) (snd (first_new m seen recs ts)).
Proof.
  revert seen recs; induction ts as [|t ts IH]; simpl; intros seen recs H; [exact H|].
  destruct (truthy_str (t_id t) && negb (mem (t_id t) seen)) eqn:Hc; [|apply IH; exact H].
  apply andb_true_iff in Hc as [_ Hc]; apply negb_true_iff in Hc.
  apply inv_snoc; auto.
Qed.

Lemma similar_track_hits_inv sims seen recs :
  inv seen recs ->
  inv (fst (similar_track_hits search_tracks limit sims seen recs))
      (snd (similar_track_hits search_tracks limit sims seen recs)).
Proof.
  revert seen recs; induction sims as [|[[n a] m] sims IH]; simpl; intros seen recs H; [exact H|].
  destruct (limit <=? Z.of_nat (length recs))%Z; [exact H|].
  destruct (negb (truthy_str n) || negb (truthy_str a)); [apply IH; exact H|].
  destruct (search_tracks _ 3) as [sts|]; [|exact H].
  pose proof (first_new_inv m seen recs sts H) as Hf.
  destruct (first_new m seen recs sts); apply IH; exact Hf.
Qed.

Lemma similar_track_step_inv tids seen recs :
  inv seen recs ->
  inv (fst (similar_track_step search_tracks track_lookup similar_tracks expand_search limit tids seen recs))
      (snd (similar_track_step search_tracks track_lookup similar_tracks expand_search limit tids seen recs)).
Proof.
  revert seen recs; induction tids as [|tid tids IH]; simpl; intros seen recs H; [exact H|].
  destruct (limit <=? Z.of_nat (length recs))%Z; [exact H|].
  match goal with |- context [let '(_, _) := ?e in _] => destruct e as [s' r'] eqn:Hst end.
  apply IH.
  destruct (track_lookup tid) as [[[tn an]|]|];
    try (injection Hst as <- <-; exact H).
  destruct (truthy_str tn && truthy_str an); [|injection Hst as <- <-; exact H].
  match type of Hst with similar_track_hits _ _ ?sims _ _ = _ =>
    pose proof (similar_track_hits_inv sims seen recs H) as Hh end.
  rewrite Hst in Hh; exact Hh.
Qed.

Lemma lastfm_nodup seed_tracks l :
  lastfm_recs as_completed artist_name_of similar_artists lastfm_top_tracks search_tracks
    fetch_preview track_lookup similar_tracks genre_based_recs seed_artists expand_search limit
    seed_tracks = Ok l -> ids_nodup l.
Proof.
  unfold lastfm_recs.
  match goal with |- context [let '(_, _) := ?e in _] => destruct e as [seen1 recs1] eqn:H1 end.
  assert (Hi1 : inv (fst (seen1, recs1)) (snd (seen1, recs1))).
  { rewrite <- H1. destruct (filter truthy_str _); [apply inv_nil|].
    apply merge_batches_capped_inv, inv_nil. }
  simpl in Hi1.
  match goal with |- context [let '(_, _) := ?e in _] => destruct e as [seen2 recs2] eqn:H2 end.
  assert (Hi2 : inv (fst (seen2, recs2)) (snd (seen2, recs2))).
  { rewrite <- H2. destruct (_ && _); [apply similar_track_step_inv; exact Hi1|exact Hi1]. }
  simpl in Hi2.
  match goal with |- context [if ?b then match genre_based_recs _ _ _ _ with _ => _ end else _] =>
    destruct b end.
  - match goal with |- context [match genre_based_recs ?a ?b ?c ?d with _ => _ end] =>
      destruct (genre_based_recs a b c d) as [gts|]; [|intros Hr; discriminate Hr] end.
    pose proof (add_new_inv seen2 recs2 gts Hi2) as Hi3.
    destruct (add_new seen2 recs2 gts) as [seen3 recs3]; simpl in Hi3.
    intros H; injection H as <-. apply nodup_py_take.
    eapply nodup_perm; [apply sort_desc_perm|]. eapply inv_nodup; exact Hi3.
  - intros H; injection H as <-. apply nodup_py_take.
    eapply nodup_perm; [apply sort_desc_perm|]. eapply inv_nodup; exact Hi2.
Qed.
End LastfmNodup.

(** C6: the tracks returned never share an id, whatever the providers answer and
    in whatever order the futures complete ([random.shuffle] only permutes). *)
Theorem dedup_result_ids (P : providers) sa st sg limit E ex :
  (forall l, Permutation (p_shuffle P l) l) ->
  NoDup (map t_id (r_tracks (engine_recommendations P sa st sg limit E ex))).
Proof.
  intros Hsh. apply dedup_orchestrator.
  - intros a b c l; apply genre_only_nodup; exact Hsh.
  - intros a b c d l; apply lastfm_nodup.
Qed.

(** C4: no returned track has an id in [exclude_track_ids], in every strategy and
    whatever the helpers return or raise. *)
Theorem exclusion_respected go lf sr fb sa st sg limit E ex :
  Forall (fun t => ~ In (t_id t) E)
    (r_tracks (get_recommendations go lf sr fb sa st sg limit E ex)).
Proof.
  apply Forall_forall; intros t Ht Hin.
  apply tracks_not_excluded in Ht. unfold not_excluded, mem in Ht.
  apply negb_true_iff in Ht.
  assert (existsb (String.eqb (t_id t)) E = true) as H'
    by (apply existsb_exists; exists (t_id t); split; [exact Hin|apply String.eqb_refl]).
  congruence.
Qed.

(** ** Statements of the claims about the orchestrator *)

Lemma filter_all_true (l : list track) : filter (not_excluded []) l = l.
Proof. induction l as [|t l IH]; simpl; [reflexivity|rewrite IH; reflexivity]. Qed.

(** C10: [get_recommendations] never lets an exception out: whatever the
    helpers do, it returns the [result] dict, and when a helper raises, that
    dict holds what the steps before it accumulated.  If the first gathering
    helper (genre-only, or Last.fm) raises, the tracks are empty and both
    flags false.  If Step 2 ([get_spotify_recommendations]) raises, the
    Last.fm tracks kept after the exclusion filter are returned with their
    [lastfm] flag.  If the Step 3 fallback raises, the tracks gathered by the
    Last.fm step and the Step 2 merge are returned, [spotify] still false.
    [ex'] and [sl] are the [expand_search] and [search_limit] in force. *)
Theorem no_exception_to_caller go lf sr fb sa st sg limit E ex :
  let ex' := match E with [] => ex | _ :: _ => true end in
  let sl := match E with [] => limit | _ :: _ => (limit * 3)%Z end in
  ((sa = [] -> st = [] -> sg <> [] -> go sg sl ex' = Raised) ->
   (sa <> [] \/ st <> [] -> lf sa st sl ex' = Raised) ->
   get_recommendations go lf sr fb sa st sg limit E ex = empty_result)
  /\ (forall l, sa <> [] -> lf sa st sl ex' = Ok l ->
      let lt := filter (not_excluded E) l in
      len_lt lt limit = true -> sg <> [] ->
      sr (firstn 5 sa) (firstn 5 sg) (sl - Z.of_nat (length lt))%Z = Raised ->
      get_recommendations go lf sr fb sa st sg limit E ex
        = mk_result lt (0 <? length lt)%nat false)
  /\ (forall l gt, sa <> [] -> lf sa st sl ex' = Ok l ->
      let lt := filter (not_excluded E) l in
      (len_lt lt limit = true -> sg <> [] ->
       sr (firstn 5 sa) (firstn 5 sg) (sl - Z.of_nat (length lt))%Z = Ok gt) ->
      let cur := if len_lt lt limit && (0 <? length sg)%nat
                 then merge_new E (map t_id lt) lt gt else lt in
      len_lt cur limit = true ->
      fb sa (sl - Z.of_nat (length cur))%Z ex' = Raised ->
      get_recommendations go lf sr fb sa st sg limit E ex
        = mk_result cur (0 <? length lt)%nat false).
Proof.
  intros ex' sl; split; [|split].
  - intros Hgo Hlf.
    destruct sa as [|a sa'].
    + destruct st as [|t st'].
      * destruct sg as [|g sg'].
        -- unfold_run; destruct E; rewrite ?py_take_nil; reflexivity.
        -- specialize (Hgo eq_refl eq_refl ltac:(discriminate)).
           unfold ex', sl in Hgo; unfold_run; destruct E; simpl in Hgo; rewrite Hgo;
             rewrite ?py_take_nil; reflexivity.
      * assert (Hne : t :: st' <> []) by discriminate; specialize (Hlf (or_intror Hne)).
        unfold ex', sl in Hlf; unfold_run; destruct E, sg; simpl in Hlf; rewrite Hlf;
          rewrite ?py_take_nil; reflexivity.
    + assert (Hne : a :: sa' <> []) by discriminate; specialize (Hlf (or_introl Hne)).
      unfold ex', sl in Hlf; unfold_run; destruct E, sg; simpl in Hlf; rewrite Hlf;
        rewrite ?py_take_nil; reflexivity.
  - intros l Hsa Hl lt Hlen Hsg Hsr.
    destruct sa as [|a sa']; [congruence|]; destruct sg as [|g sg']; [congruence|].
    unfold ex', sl, lt in *; unfold_run; destruct E; simpl in *;
      rewrite Hl; simpl; rewrite Hlen; simpl; rewrite Hsr; rewrite ?py_take_nil; reflexivity.
  - intros l gt Hsa Hl lt Hsr cur Hcur Hfb.
    destruct sa as [|a sa']; [congruence|].
    unfold ex', sl, cur, lt in *; clear cur lt ex' sl.
    remember (filter (not_excluded E) l) as lt eqn:Hlt.
    destruct (len_lt lt limit) eqn:Hlen; simpl in Hcur, Hfb.
    + destruct sg as [|g sg']; simpl in Hcur, Hfb.
      * unfold_run. destruct E; rewrite Hl; simpl; rewrite <- Hlt, Hlen; simpl; rewrite Hcur; simpl; rewrite Hfb; simpl; rewrite ?py_take_nil; reflexivity.
      * specialize (Hsr eq_refl ltac:(discriminate)); simpl in Hsr.
        unfold_run. destruct E; rewrite Hl; simpl; rewrite <- Hlt, Hlen; simpl; rewrite Hsr; simpl; rewrite Hcur; simpl; rewrite Hfb; simpl; rewrite ?py_take_nil; reflexivity.
    + destruct sg as [|g sg']; simpl in Hcur, Hfb.
      * unfold_run. destruct E; rewrite Hl; simpl; rewrite <- Hlt, Hlen; simpl; rewrite Hcur; simpl; rewrite Hfb; simpl; rewrite ?py_take_nil; reflexivity.
      * unfold_run. destruct E; rewrite Hl; simpl; rewrite <- Hlt, Hlen; simpl; rewrite Hcur; simpl; rewrite Hfb; simpl; rewrite ?py_take_nil; reflexivity.
Qed.

Lemma no_exception_to_caller_witness :
  let t1 := (mk_track "t1" ["X1"] None None)%string in
  let t2 := (mk_track "t2" ["X2"] None None)%string in
  get_recommendations (fun _ _ _ => Raised) (fun _ _ _ _ => Ok [t1]) (fun _ _ _ => Raised)
    (fun _ _ _ => Raised) ["A1"%string] [] ["pop"%string] 20 [] false
  = mk_result [t1] true false
  /\ get_recommendations (fun _ _ _ => Raised) (fun _ _ _ _ => Ok [t1]) (fun _ _ _ => Ok [t2])
       (fun _ _ _ => Raised) ["A1"%string] [] ["pop"%string] 20 [] false
     = mk_result [t1; t2] true false.
Proof.
  intros t1 t2; split.
  - exact (proj1 (proj2 (no_exception_to_caller (fun _ _ _ => Raised) (fun _ _ _ _ => Ok [t1])
      (fun _ _ _ => Raised) (fun _ _ _ => Raised) ["A1"%string] [] ["pop"%string] 20 [] false))
      [t1] ltac:(discriminate) eq_refl eq_refl ltac:(discriminate) eq_refl).
  - exact (proj2 (proj2 (no_exception_to_caller (fun _ _ _ => Raised) (fun _ _ _ _ => Ok [t1])
      (fun _ _ _ => Ok [t2]) (fun _ _ _ => Raised) ["A1"%string] [] ["pop"%string] 20 [] false))
      [t1] [t2] ltac:(discriminate) eq_refl (fun _ _ => eq_refl) eq_refl eq_refl).
Defined.

(** C1 (code bug): seeding with artist [A1] returns [A1]'s own track, once
    through the Last.fm similar-tracks path and once through the Spotify
    recommendations top-up; neither path checks the seed artists and no final
    pass does. *)
Theorem self_recommendation_returned :
  r_tracks (engine_recommendations Scenarios.similar_tracks_scenario
              ["A1"%string] ["T1"%string] [] 20 [] false)
    = [mk_track "t1" ["A1"] (Some 90%Z) (Some "https://p.scdn.co/mp3-preview/x")]%string
  /\ r_tracks (engine_recommendations Scenarios.spotify_topup_scenario
                 ["A1"%string] [] ["pop"%string] 20 [] false)
    = [Scenarios.trk "t2" ["A1"]]%string.
Proof. split; vm_compute; reflexivity. Qed.

(** C3 (code bug): a genre-only request, served by Spotify's search alone (the
    only helper called is the genre-only one, which takes no Last.fm
    provider), reports [sources['lastfm'] = True]. *)
Theorem genre_only_reports_lastfm :
  engine_recommendations Scenarios.jazz_scenario [] [] ["jazz"%string] 20 [] false
    = mk_result [Scenarios.trk "j1" ["X1"]]%string true false
  /\ map c_helper (engine_calls Scenarios.jazz_scenario [] [] ["jazz"%string] 20 [] false)
    = [HGenreOnly].
Proof. split; vm_compute; reflexivity. Qed.

(** C5, counterexample: with [limit = -1] the (empty) result is longer than
    [limit]. *)
Lemma bound_fails_negative_limit :
  ~ (Z.of_nat (length (r_tracks (engine_recommendations Scenarios.jazz_scenario
                                   [] [] ["jazz"%string] (-1) [] false))) <= -1)%Z.
Proof. vm_compute. intros H; apply H; reflexivity. Qed.

Lemma bound_respected_witness :
  (Z.of_nat (length (r_tracks (engine_recommendations Scenarios.jazz_scenario
                                 [] [] ["jazz"%string] 20 [] false))) <= 20)%Z.
Proof. apply bound_respected; lia. Defined.

Lemma dedup_result_ids_witness :
  NoDup (map t_id (r_tracks (engine_recommendations Scenarios.jazz_scenario
                               [] [] ["jazz"%string] 20 [] false))).
Proof. apply dedup_result_ids; intros l; reflexivity. Defined.

Lemma regeneration_mode_witness :
  exists pre, r_tracks (engine_recommendations Scenarios.jazz_scenario
                          [] [] ["jazz"%string] 20 ["j0"%string] false) = py_take 20 pre
    /\ forall t, In t pre -> not_excluded ["j0"%string] t = true.
Proof.
  exact (proj2 (regeneration_mode (engine_genre_only Scenarios.jazz_scenario)
    (engine_lastfm Scenarios.jazz_scenario) (p_spotify_recs Scenarios.jazz_scenario)
    (p_fallback_recs Scenarios.jazz_scenario) [] [] ["jazz"%string] 20 ["j0"%string] false
    ltac:(discriminate))).
Defined.

(** C8, counterexample: processing seed artist Adele, the similar artist
    "Beyonce", itself the resolved name of seed artist [B], has its Last.fm
    top tracks fetched and contributes a candidate (a cover by a third artist),
    which reaches the final result. *)
Lemma other_seed_name_not_skipped :
  let P := Scenarios.two_seeds_scenario in
  map (p_artist_name_of P) ["A"; "B"]%string = ["Adele"; "Beyonce"]%string
  /\ process_artist (p_as_completed P) (p_similar_artists P) (p_lastfm_top_tracks P)
       (p_search_tracks P) (p_fetch_preview P) ["A"; "B"]%string false "Adele"%string
     = (["Beyonce"%string],
        [mk_track "c1" ["X9"] (Some 90%Z) (Some "https://p.scdn.co/mp3-preview/x")]%string)
  /\ map t_id (r_tracks (engine_recommendations P ["A"; "B"]%string [] [] 20 [] false))
     = ["c1"%string].
Proof. vm_compute; repeat split; reflexivity. Qed.

(** C8 (amended): a similar artist is skipped exactly when its name, put
    through [str.lower()], equals the lowered name of the seed artist being
    processed: then no Last.fm top-track request is made and no candidate
    comes from it; any other similar artist, even one named like another
    seed artist, has its top tracks fetched. *)
Theorem own_name_similar_skipped top_tracks search fetch seed_artists artist_name
    tracks_per_artist similar :
  (py_lower (fst similar) = py_lower artist_name ->
   get_tracks_from_similar top_tracks search fetch seed_artists artist_name tracks_per_artist
     similar = ([], []))
  /\ (py_lower (fst similar) <> py_lower artist_name ->
      fst (get_tracks_from_similar top_tracks search fetch seed_artists artist_name
             tracks_per_artist similar) = [fst similar]).
Proof.
  destruct similar as [name m]; simpl; split; intros H.
  - rewrite H, String.eqb_refl; reflexivity.
  - apply String.eqb_neq in H; rewrite H; reflexivity.
Qed.

Lemma own_name_similar_skipped_witness :
  let P := Scenarios.two_seeds_scenario in
  get_tracks_from_similar (p_lastfm_top_tracks P) (p_search_tracks P) (p_fetch_preview P)
    ["A"; "B"]%string "Björk"%string 5 ("BJÖRK"%string, 70%Z) = ([], [])
  /\ fst (get_tracks_from_similar (p_lastfm_top_tracks P) (p_search_tracks P)
            (p_fetch_preview P) ["A"; "B"]%string "Adele"%string 5 ("Beyonce"%string, 90%Z))
     = ["Beyonce"%string].
Proof.
  intros P; split.
  - apply (proj1 (own_name_similar_skipped (p_lastfm_top_tracks P) (p_search_tracks P)
      (p_fetch_preview P) ["A"; "B"]%string "Björk"%string 5 ("BJÖRK"%string, 70%Z))).
    vm_compute; reflexivity.
  - apply (proj2 (own_name_similar_skipped (p_lastfm_top_tracks P) (p_search_tracks P)
      (p_fetch_preview P) ["A"; "B"]%string "Adele"%string 5 ("Beyonce"%string, 90%Z))).
    vm_compute; discriminate.
Defined.

End EngineFacts.

(** ** Facts about the Spotify helpers *)
Module SpotifyFacts.
Import Spotify.
Local Open Scope string_scope.

(** A [get] with a falsy default sees the same truthy value as one with
    [None]. *)
Lemma py_get_falsy_default d k dflt :
  truthy dflt = false ->
  truthy (py_get d k dflt) = truthy (py_get d k PNone)
  /\ (truthy (py_get d k dflt) = true -> py_get d k dflt = py_get d k PNone).
Proof.
  intros Hd; induction d as [|[k' v] d IH]; simpl.
  - rewrite Hd; split; [reflexivity|discriminate].
  - destruct (String.eqb k k'); [split; reflexivity|exact IH].
Qed.

Lemma artist_string_again py_str a s s' A :
  artist_string_of py_str a s = Ok A ->
  truthy s' = truthy s -> (truthy s' = true -> s' = s) ->
  artist_string_of py_str A s' = Ok A.
Proof.
  unfold artist_string_of; intros H Ht Heq.
  destruct (truthy a) eqn:Ha.
  - injection H as <-; rewrite Ha; reflexivity.
  - destruct (truthy A) eqn:HA; [reflexivity|].
    rewrite Ht; destruct (truthy s) eqn:Hs.
    + rewrite (Heq Ht); exact H.
    + injection H as <-; discriminate HA.
Qed.

Lemma image_url_again iu al al' I :
  image_url_of iu al = Ok I ->
  truthy al' = truthy al -> (truthy al' = true -> al' = al) ->
  image_url_of I al' = Ok I.
Proof.
  unfold image_url_of; intros H Ht Heq.
  destruct (truthy iu) eqn:Hiu; simpl in H.
  - injection H as <-; rewrite Hiu; reflexivity.
  - destruct (truthy I) eqn:HI; [reflexivity|]; simpl.
    rewrite Ht; destruct (truthy al) eqn:Hal; simpl in H.
    + rewrite (Heq Ht).
      destruct al as [| | | | |ad]; try (injection H as <-; reflexivity).
      destruct (truthy (py_get ad "images" PNone)); [|injection H as <-; reflexivity].
      exact H.
    + reflexivity.
Qed.

Lemma spotify_url_again su e e' S :
  spotify_url_of su e = Ok S ->
  truthy e' = truthy e -> (truthy e' = true -> e' = e) ->
  spotify_url_of S e' = Ok S.
Proof.
  unfold spotify_url_of; intros H Ht Heq.
  destruct (truthy su) eqn:Hsu; simpl in H.
  - injection H as <-; rewrite Hsu; reflexivity.
  - destruct (truthy S) eqn:HS; [reflexivity|]; simpl.
    rewrite Ht; destruct (truthy e) eqn:He; simpl in H.
    + rewrite (Heq Ht); exact H.
    + reflexivity.
Qed.

(** C7: normalizing the record [normalize_track] returned gives back the
    same record: same id, name, artist string, artists, album, image_url,
    preview_url, spotify_url, external_urls and popularity.  It holds
    whatever [str()] renders. *)
Theorem normalize_idempotent py_str r n :
  normalize_track py_str r = Ok (Some n) -> normalize_track py_str n = Ok (Some n).
Proof.
  unfold normalize_track at 1; intros H.
  destruct (truthy r) eqn:Hr; simpl in H; [|discriminate].
  destruct r as [| | | | |d]; try discriminate.
  destruct (truthy (py_get d "id" PNone)) eqn:Hid; simpl in H; [|discriminate].
  destruct (artist_string_of py_str _ _) as [A|] eqn:HA; [|discriminate].
  destruct (image_url_of _ _) as [I|] eqn:HI; [|discriminate].
  destruct (spotify_url_of _ _) as [S|] eqn:HS; [|discriminate].
  injection H as <-.
  unfold normalize_track; simpl; rewrite Hid; simpl.
  destruct (py_get_falsy_default d "artists" (PList []) eq_refl) as [Ta Ea].
  destruct (py_get_falsy_default d "album" (PDict []) eq_refl) as [Tb Eb].
  destruct (py_get_falsy_default d "external_urls" (PDict []) eq_refl) as [Te Ee].
  rewrite (artist_string_again _ _ _ _ _ HA Ta Ea).
  rewrite (image_url_again _ _ _ _ HI Tb Eb).
  rewrite (spotify_url_again _ _ _ _ HS Te Ee).
  reflexivity.
Qed.

Lemma normalize_idempotent_witness :
  let raw := PDict [("id", PStr "t1"); ("name", PStr "Song");
                    ("artists", PList [PDict [("name", PStr "Adele")]; PStr "x"]);
                    ("album", PDict [("images", PList [PDict [("url", PStr "u")]])]);
                    ("external_urls", PDict [("spotify", PStr "s")])] in
  let out := PDict [("id", PStr "t1"); ("name", PStr "Song"); ("artist", PStr "Adele, x");
                    ("artists", PList [PDict [("name", PStr "Adele")]; PStr "x"]);
                    ("album", PDict [("images", PList [PDict [("url", PStr "u")]])]);
                    ("image_url", PStr "u"); ("preview_url", PNone);
                    ("spotify_url", PStr "s");
                    ("external_urls", PDict [("spotify", PStr "s")]);
                    ("popularity", PInt 0)] in
  normalize_track (fun _ => "x") raw = Ok (Some out)
  /\ normalize_track (fun _ => "x") out = Ok (Some out).
Proof.
  intros raw out.
  assert (H : normalize_track (fun _ => "x") raw = Ok (Some out)) by reflexivity.
  split; [exact H | exact (normalize_idempotent _ _ _ H)].
Defined.


(** The backoff [2 ** attempt] is a valid [time.sleep] argument exactly
    up to [attempt = 33]. *)
Lemma sleep_ok_pow2 k : sleep_ok (2 ^ Z.of_nat k) = (k <=? 33)%nat.
Proof.
  unfold sleep_ok.
  assert (H0 : (0 <= 2 ^ Z.of_nat k)%Z) by (apply Z.pow_nonneg; lia).
  destruct (k <=? 33)%nat eqn:Hk.
  - apply Nat.leb_le in Hk.
    assert (H1 : (2 ^ Z.of_nat k <= 2 ^ 33)%Z) by (apply Z.pow_le_mono_r; lia).
    apply andb_true_iff; split; [apply Z.leb_le; lia|apply Z.leb_le; lia].
  - apply Nat.leb_gt in Hk.
    assert (H1 : (2 ^ 34 <= 2 ^ Z.of_nat k)%Z) by (apply Z.pow_le_mono_r; lia).
    rewrite (proj2 (Z.leb_gt (2 ^ Z.of_nat k) 9223372036)) by lia.
    apply andb_false_r.
Qed.





End SpotifyFacts.

(** ** Facts about the list helpers of [spotify_api.py] *)
Module SpotifyListFacts.
Import Spotify SpotifyLists.
Local Open Scope string_scope.

Lemma filter_loop_kept ex tracks out :
  filter_loop ex tracks = Ok out -> incl out tracks /\ Forall (free_of ex) out.
Proof.
  revert out; induction tracks as [|t ts IH]; simpl; intros out H.
  - injection H as <-; split; [intros x []|constructor].
  - destruct t as [| | | | |d]; try discriminate.
    destruct (track_artist_ids d) as [aids|] eqn:Ha; [|discriminate].
    destruct (any_excluded ex aids) as [[|]|] eqn:He; try discriminate.
    + destruct (IH _ H) as [Hi Hf]; split; [intros x Hx; right; auto|exact Hf].
    + destruct (filter_loop ex ts) as [kept|] eqn:Hk; [|discriminate].
      injection H as <-; destruct (IH _ eq_refl) as [Hi Hf]; split.
      * intros x [<-|Hx]; [left; reflexivity|right; auto].
      * constructor; [exists d, aids; auto|exact Hf].
Qed.

Lemma filter_loop_free ex out : Forall (free_of ex) out -> filter_loop ex out = Ok out.
Proof.
  induction 1 as [|t ts [d [aids [-> [Ha He]]]] _ IH]; simpl; [reflexivity|].
  rewrite Ha, He, IH; reflexivity.
Qed.

(** [filter_tracks_by_artists] returns its input unchanged for an empty
    exclusion list; otherwise what it returns (when it does not raise) is
    drawn from the input, every kept track is a dict none of whose artist ids
    is excluded, and filtering the result again changes nothing. *)
Theorem filter_tracks_by_artists_sound tracks ex out :
  filter_tracks_by_artists tracks ex = Ok out ->
  (ex = [] -> out = tracks)
  /\ (ex <> [] -> incl out tracks /\ Forall (free_of ex) out
                /\ filter_tracks_by_artists out ex = Ok out).
Proof.
  unfold filter_tracks_by_artists; destruct ex as [|e ex']; intros H.
  - injection H as <-; split; [reflexivity|intros []; reflexivity].
  - split; [discriminate|intros _].
    destruct (filter_loop_kept _ _ _ H) as [Hi Hf].
    split; [exact Hi|split; [exact Hf|apply filter_loop_free; exact Hf]].
Qed.

Lemma hkey_mem_In k ks : hkey_mem k ks = true <-> In k ks.
Proof.
  unfold hkey_mem; rewrite existsb_exists; split.
  - intros [k' [Hin He]]; destruct (hkey_eq_dec k k'); [subst; exact Hin|discriminate].
  - intros Hin; exists k; split; [exact Hin|destruct (hkey_eq_dec k k); congruence].
Qed.

Lemma hkey_mem_app_false k ks k' :
  hkey_mem k (ks ++ [k']) = false -> hkey_mem k ks = false /\ k <> k'.
Proof.
  intros H; split.
  - destruct (hkey_mem k ks) eqn:E; [|reflexivity].
    apply hkey_mem_In in E; assert (hkey_mem k (ks ++ [k']) = true) as E'
      by (apply hkey_mem_In, in_or_app; left; exact E); congruence.
  - intros ->; assert (hkey_mem k' (ks ++ [k']) = true) as E'
      by (apply hkey_mem_In, in_or_app; right; left; reflexivity); congruence.
Qed.

Lemma dedup_loop_unique seen ts out :
  dedup_loop seen ts = Ok out -> incl out ts /\ unique_run seen out.
Proof.
  revert seen out; induction ts as [|t ts IH]; simpl; intros seen out H.
  - injection H as <-; split; [intros x []|exact I].
  - destruct t as [| | | | |d]; try discriminate.
    destruct (truthy (py_get d "id" PNone)) eqn:Ht.
    + destruct (id_key (py_get d "id" PNone)) as [k|] eqn:Hk; [|discriminate].
      destruct (hkey_mem k seen) eqn:Hm.
      * destruct (IH _ _ H) as [Hi Hu]; split; [intros x Hx; right; auto|exact Hu].
      * destruct (dedup_loop (seen ++ [k]) ts) as [u|] eqn:Hd; [|discriminate].
        injection H as <-; destruct (IH _ _ Hd) as [Hi Hu]; split.
        -- intros x [<-|Hx]; [left; reflexivity|right; auto].
        -- split; [exact Ht|exists k; auto].
    + destruct (IH _ _ H) as [Hi Hu]; split; [intros x Hx; right; auto|exact Hu].
Qed.

Lemma unique_run_dedup seen out : unique_run seen out -> dedup_loop seen out = Ok out.
Proof.
  revert seen; induction out as [|t out IH]; simpl; intros seen H; [reflexivity|].
  destruct H as [Ht [k [Hk [Hm Hu]]]].
  destruct t as [| | | | |d]; try discriminate; simpl in Ht, Hk.
  rewrite Ht, Hk, Hm, (IH _ Hu); reflexivity.
Qed.

Lemma unique_run_keys seen out :
  unique_run seen out ->
  keys_distinct out
  /\ Forall (fun t => has_truthy_id t = true
                      /\ exists k, track_key t = Ok k /\ hkey_mem k seen = false) out.
Proof.
  revert seen; induction out as [|t out IH]; simpl; intros seen H.
  - split; [split; [constructor|intros ? ? ? []]|constructor].
  - destruct H as [Ht [k [Hk [Hm Hu]]]].
    destruct (IH _ Hu) as [[Hnd Hdk] Hf].
    assert (Hnot : forall t', In t' out -> track_key t' = Ok k -> False).
    { intros t' Hin Hk'; rewrite Forall_forall in Hf.
      destruct (Hf _ Hin) as [_ [k' [Hk'' Hm']]].
      rewrite Hk' in Hk''; injection Hk'' as <-.
      apply hkey_mem_app_false in Hm' as [_ Hne]; exact (Hne eq_refl). }
    split; [split|].
    + constructor; [intros Hin; exact (Hnot t Hin Hk)|exact Hnd].
    + intros t1 t2 k0 [<-|H1] [<-|H2] E1 E2; try reflexivity.
      * rewrite Hk in E1; injection E1 as <-; exfalso; exact (Hnot t2 H2 E2).
      * rewrite Hk in E2; injection E2 as <-; exfalso; exact (Hnot t1 H1 E1).
      * exact (Hdk _ _ _ H1 H2 E1 E2).
    + constructor; [split; [exact Ht|exists k; auto]|].
      eapply Forall_impl; [|exact Hf].
      intros x [Hx [k' [Hk' Hm']]]; split; [exact Hx|exists k'; split; [exact Hk'|]].
      apply hkey_mem_app_false in Hm' as [Hm' _]; exact Hm'.
Qed.

Lemma dedup_loop_complete seen ts out :
  dedup_loop seen ts = Ok out ->
  forall t k, In t ts -> has_truthy_id t = true -> track_key t = Ok k ->
    In k seen \/ exists t', In t' out /\ track_key t' = Ok k.
Proof.
  revert seen out; induction ts as [|t0 ts IH]; simpl; intros seen out H t k Hin Ht Hk;
    [contradiction|].
  destruct t0 as [| | | | |d]; try discriminate.
  destruct (truthy (py_get d "id" PNone)) eqn:Ht0.
  - destruct (id_key (py_get d "id" PNone)) as [k0|] eqn:Hk0; [|discriminate].
    destruct (hkey_mem k0 seen) eqn:Hm.
    + destruct Hin as [<-|Hin].
      * simpl in Hk; rewrite Hk0 in Hk; injection Hk as <-.
        left; apply hkey_mem_In; exact Hm.
      * exact (IH _ _ H t k Hin Ht Hk).
    + destruct (dedup_loop (seen ++ [k0]) ts) as [u|] eqn:Hd; [|discriminate].
      injection H as <-.
      destruct Hin as [<-|Hin].
      * right; exists (PDict d); split; [left; reflexivity|exact Hk].
      * destruct (IH _ _ Hd t k Hin Ht Hk) as [Hs|[t' [Ht' Hk']]].
        -- apply in_app_or in Hs as [Hs|[<-|[]]]; [left; exact Hs|].
           right; exists (PDict d); split; [left; reflexivity|exact Hk0].
        -- right; exists t'; split; [right; exact Ht'|exact Hk'].
  - destruct Hin as [<-|Hin]; [simpl in Ht; congruence|].
    exact (IH _ _ H t k Hin Ht Hk).
Qed.

(** [_deduplicate_tracks], when it does not raise, returns tracks drawn from
    its input, each with a truthy id, no two with ids equal as set keys; every
    id of the input is still represented; and deduplicating again changes
    nothing. *)
Theorem deduplicate_tracks_sound ts out :
  deduplicate_tracks ts = Ok out ->
  incl out ts /\ keys_distinct out /\ Forall (fun t => has_truthy_id t = true) out
  /\ (forall t k, In t ts -> has_truthy_id t = true -> track_key t = Ok k ->
        exists t', In t' out /\ track_key t' = Ok k)
  /\ deduplicate_tracks out = Ok out.
Proof.
  unfold deduplicate_tracks; intros H.
  destruct (dedup_loop_unique _ _ _ H) as [Hi Hu].
  destruct (unique_run_keys _ _ Hu) as [Hk Hf].
  split; [exact Hi|split; [exact Hk|split; [|split]]].
  - eapply Forall_impl; [|exact Hf]; intros x [Hx _]; exact Hx.
  - intros t k Hin Ht Htk.
    destruct (dedup_loop_complete _ _ _ H t k Hin Ht Htk) as [[]|Hex]; exact Hex.
  - apply unique_run_dedup; exact Hu.
Qed.

Lemma normalize_output_fixed py_str r n :
  normalize_track py_str r = Ok (Some n) ->
  normalize_track py_str n = Ok (Some n) /\ has_truthy_id n = true.
Proof.
  unfold normalize_track at 1; intros H.
  destruct (truthy r) eqn:Hr; simpl in H; [|discriminate].
  destruct r as [| | | | |d]; try discriminate.
  destruct (truthy (py_get d "id" PNone)) eqn:Hid; simpl in H; [|discriminate].
  destruct (artist_string_of py_str _ _) as [A|] eqn:HA; [|discriminate].
  destruct (image_url_of _ _) as [I|] eqn:HI; [|discriminate].
  destruct (spotify_url_of _ _) as [S|] eqn:HS; [|discriminate].
  injection H as <-; split; [|exact Hid].
  unfold normalize_track; simpl; rewrite Hid; simpl.
  destruct (SpotifyFacts.py_get_falsy_default d "artists" (PList []) eq_refl) as [Ta Ea].
  destruct (SpotifyFacts.py_get_falsy_default d "album" (PDict []) eq_refl) as [Tb Eb].
  destruct (SpotifyFacts.py_get_falsy_default d "external_urls" (PDict []) eq_refl) as [Te Ee].
  rewrite (SpotifyFacts.artist_string_again _ _ _ _ _ HA Ta Ea).
  rewrite (SpotifyFacts.image_url_again _ _ _ _ HI Tb Eb).
  rewrite (SpotifyFacts.spotify_url_again _ _ _ _ HS Te Ee).
  reflexivity.
Qed.

Lemma normalize_items_fixed py_str items out :
  normalize_items py_str items = Ok out ->
  Forall (fun t => normalize_track py_str t = Ok (Some t) /\ has_truthy_id t = true) out
  /\ (length out <= length items)%nat.
Proof.
  revert out; induction items as [|it items IH]; simpl; intros out H.
  - injection H as <-; split; [constructor|simpl; lia].
  - destruct (normalize_track py_str it) as [[n|]|] eqn:Hn; try discriminate;
      destruct (normalize_items py_str items) as [ts|] eqn:Hts; try discriminate;
      destruct (IH _ eq_refl) as [Hf Hl].
    + destruct (truthy n); injection H as <-; simpl; [|split; [exact Hf|lia]].
      split; [constructor; [exact (normalize_output_fixed _ _ _ Hn)|exact Hf]|lia].
    + injection H as <-; split; [exact Hf|lia].
Qed.

(** Every track [search_tracks] returns is a normalized record with a truthy
    id, on which [normalize_track] is the identity, and there are no more of
    them than items in the response. *)
Theorem search_tracks_normalized py_str http query limit out :
  search_tracks py_str http query limit = Ok out ->
  Forall (fun t => normalize_track py_str t = Ok (Some t) /\ has_truthy_id t = true) out
  /\ (forall data tracks_obj items,
        http query (Z.min limit 50) = Some (PDict data) ->
        py_get data "tracks" (PDict []) = PDict tracks_obj ->
        py_iter (py_get tracks_obj "items" (PList [])) = Ok items ->
        (length out <= length items)%nat).
Proof.
  unfold search_tracks; intros H.
  destruct (http query (Z.min limit 50)) as [[| | | | |data]|] eqn:Hh; try discriminate.
  - destruct (py_get data "tracks" (PDict [])) as [| | | | |tobj] eqn:Ht; try discriminate.
    destruct (py_iter (py_get tobj "items" (PList []))) as [items|] eqn:Hi; [|discriminate].
    destruct (normalize_items_fixed _ _ _ H) as [Hf Hl]; split; [exact Hf|].
    intros data' tobj' items' Hd Ht' Hi'.
    injection Hd as <-; rewrite Ht in Ht'; injection Ht' as <-.
    rewrite Hi in Hi'; injection Hi' as <-; exact Hl.
  - injection H as <-; split; [constructor|intros; discriminate].
Qed.

Lemma nodup_firstn_gen {A} k (l : list A) : NoDup l -> NoDup (firstn k l).
Proof. intros H; rewrite <- (firstn_skipn k l) in H; eapply NoDup_app_remove_r; exact H. Qed.

Lemma keys_distinct_sub l l' : NoDup l -> incl l l' -> keys_distinct l' -> keys_distinct l.
Proof.
  intros Hn Hi [_ Hk]; split; [exact Hn|].
  intros t1 t2 k H1 H2; apply Hk; apply Hi; assumption.
Qed.

(** The end of [get_recommendations_from_artists_and_genres]: for a
    non-negative [limit] and a shuffle that permutes, the result has at most
    [limit] tracks, no two sharing an id, each with a truthy id, and none by a
    seed artist. *)
Theorem smart_finish_sound shuffle seed_artists limit all_tracks :
  (forall l, Permutation (shuffle l) l) -> (0 <= limit)%Z ->
  let out := smart_finish shuffle seed_artists limit all_tracks in
  (Z.of_nat (length out) <= limit)%Z /\ keys_distinct out
  /\ Forall (fun t => has_truthy_id t = true) out
  /\ (seed_artists <> [] -> Forall (free_of seed_artists) out).
Proof.
  intros Hsh Hl out; subst out; unfold smart_finish.
  assert (Hempty : (Z.of_nat (length (@nil pyval)) <= limit)%Z /\ keys_distinct []
    /\ Forall (fun t => has_truthy_id t = true) [] /\ (seed_artists <> [] -> Forall (free_of seed_artists) []))
    by (split; [simpl; lia|split; [split; [constructor|intros ? ? ? []]|split; constructor]]).
  destruct (match seed_artists with [] => Ok all_tracks | _ :: _ => filter_tracks_by_artists all_tracks seed_artists end)
    as [ts|] eqn:Hf; [|exact Hempty].
  destruct (deduplicate_tracks ts) as [u|] eqn:Hd; [|exact Hempty].
  destruct (deduplicate_tracks_sound _ _ Hd) as [Hi [Hk [Ht _]]].
  assert (Hsub : incl (py_take limit (shuffle u)) u).
  { intros x Hx; apply EngineFacts.py_take_In in Hx.
    apply (Permutation_in _ (Hsh u)); exact Hx. }
  assert (Hnd : NoDup (py_take limit (shuffle u))).
  { unfold py_take; replace (0 <=? limit)%Z with true by (symmetry; apply Z.leb_le; exact Hl).
    apply nodup_firstn_gen; apply (Permutation_NoDup (Permutation_sym (Hsh u))); apply Hk. }
  split; [apply EngineFacts.py_take_length_le; exact Hl|].
  split; [exact (keys_distinct_sub _ _ Hnd Hsub Hk)|].
  split.
  - apply Forall_forall; intros x Hx; rewrite Forall_forall in Ht; apply Ht, Hsub, Hx.
  - intros Hne; destruct seed_artists as [|a sa']; [congruence|].
    destruct (filter_tracks_by_artists_sound _ _ _ Hf) as [_ Hs].
    destruct (Hs Hne) as [_ [Hfr _]].
    apply Forall_forall; intros x Hx; rewrite Forall_forall in Hfr; apply Hfr, Hi, Hsub, Hx.
Qed.

Lemma smart_finish_sound_witness :
  let t1 := PDict [("id", PStr "t1"); ("artists", PList [PDict [("id", PStr "b")]])] in
  let t2 := PDict [("id", PStr "t2"); ("artists", PList [PDict [("id", PStr "a")]])] in
  smart_finish (fun l => l) ["a"] 5 [t1; t2; t1] = [t1]
  /\ (Z.of_nat (length (smart_finish (fun l => l) ["a"] 5 [t1; t2; t1])) <= 5)%Z.
Proof.
  intros t1 t2; split; [reflexivity|].
  apply (smart_finish_sound (fun l => l) ["a"] 5 [t1; t2; t1]);
    [intros l; apply Permutation_refl|lia].
Defined.

Lemma filter_tracks_by_artists_sound_witness :
  let t1 := PDict [("id", PStr "t1"); ("artists", PList [PDict [("id", PStr "b")]])] in
  let t2 := PDict [("id", PStr "t2"); ("artists", PList [PDict [("id", PStr "a")]])] in
  filter_tracks_by_artists [t1; t2] ["a"] = Ok [t1]
  /\ filter_tracks_by_artists [t1] ["a"] = Ok [t1].
Proof.
  intros t1 t2; split; [reflexivity|].
  refine (proj2 (proj2 (proj2 (filter_tracks_by_artists_sound [t1; t2] ["a"] [t1] _) _)));
    [reflexivity|discriminate].
Defined.

Lemma deduplicate_tracks_sound_witness :
  let t1 := PDict [("id", PStr "t1")] in
  let t2 := PDict [("id", PStr "t2")] in
  let t0 := PDict [("id", PNone)] in
  deduplicate_tracks [t1; t0; t2; t1] = Ok [t1; t2]
  /\ deduplicate_tracks [t1; t2] = Ok [t1; t2].
Proof.
  intros t1 t2 t0; split; [reflexivity|].
  exact (proj2 (proj2 (proj2 (proj2 (deduplicate_tracks_sound [t1; t0; t2; t1] [t1; t2]
           ltac:(reflexivity)))))).
Defined.

Lemma search_tracks_normalized_witness :
  let item := PDict [("id", PStr "t1"); ("name", PStr "Song")] in
  let data := [("tracks", PDict [("items", PList [item; PNone])])] in
  let http := fun (_ : string) (_ : Z) => Some (PDict data) in
  exists out, search_tracks (fun _ => "") http "q" 10 = Ok out
  /\ (length out <= 2)%nat.
Proof.
  intros item data http; eexists; split; [vm_compute; reflexivity|].
  apply (proj2 (search_tracks_normalized (fun _ => "") http "q" 10 _ ltac:(vm_compute; reflexivity))
           data [("items", PList [item; PNone])] [item; PNone]);
    vm_compute; reflexivity.
Defined.

End SpotifyListFacts.

(** ** Further facts about [_make_spotify_request] *)
Module RequestFacts.
Import Spotify.

Lemma request_loop_frame send send' max_retries attempt remaining sleeps :
  (forall a, (attempt <= a < attempt + remaining)%nat -> send a = send' a) ->
  request_loop send max_retries attempt remaining sleeps
    = request_loop send' max_retries attempt remaining sleeps.
Proof.
  revert attempt sleeps; induction remaining as [|r IH]; intros attempt sleeps Hs;
    simpl; [reflexivity|].
  rewrite (Hs attempt) by lia.
  assert (Hs' : forall a, (S attempt <= a < S attempt + r)%nat -> send a = send' a)
    by (intros a Ha; apply Hs; lia).
  destruct (send' attempt) as [code hdr| |].
  - destruct (code =? 429)%Z; [|reflexivity].
    destruct (retry_after_of hdr) as [n|]; [|reflexivity].
    destruct (negb (sleep_ok n)); [reflexivity|apply IH; exact Hs'].
  - destruct (Z.of_nat attempt <? max_retries - 1)%Z; [|reflexivity].
    destruct (negb (sleep_ok _)); [reflexivity|apply IH; exact Hs'].
  - destruct (Z.of_nat attempt <? max_retries - 1)%Z; [|reflexivity].
    destruct (negb (sleep_ok _)); [reflexivity|apply IH; exact Hs'].
Qed.

(** [_make_spotify_request] makes at most [max_retries] requests: what the
    requests of attempts [max_retries] and later would produce does not
    affect its sleeps or its result (none at all when [max_retries <= 0]). *)
Theorem at_most_max_retries_requests send send' max_retries :
  (forall a, (Z.of_nat a < max_retries)%Z -> send a = send' a) ->
  make_spotify_request send max_retries = make_spotify_request send' max_retries.
Proof.
  intros Hs; unfold make_spotify_request; apply request_loop_frame.
  intros a Ha; apply Hs; lia.
Qed.

Lemma at_most_max_retries_requests_witness :
  make_spotify_request (fun a => if (a =? 0)%nat then Timeout else Response 200 None) 1
  = make_spotify_request (fun _ => Timeout) 1.
Proof.
  apply at_most_max_retries_requests; intros a Ha.
  replace a with 0%nat by lia; reflexivity.
Defined.

(** One failed attempt that is not the last: sleep [2 ** attempt] if
    [time.sleep] takes it, else raise. *)
Lemma request_loop_failure_step send mr attempt r sleeps :
  (send attempt = Timeout \/ send attempt = RequestError) ->
  (Z.of_nat attempt < mr - 1)%Z ->
  request_loop send mr attempt (S r) sleeps
    = if (attempt <=? 33)%nat
      then request_loop send mr (S attempt) r (sleeps ++ [Z.pow 2 (Z.of_nat attempt)])
      else (sleeps, Raised).
Proof.
  intros Hs Ha; simpl.
  replace (Z.of_nat attempt <? mr - 1)%Z with true by (symmetry; apply Z.ltb_lt; exact Ha).
  destruct Hs as [E|E]; rewrite E, SpotifyFacts.sleep_ok_pow2;
    destruct (attempt <=? 33)%nat; reflexivity.
Qed.

Lemma request_loop_failures send mr attempt r sleeps :
  (forall a, send a = Timeout \/ send a = RequestError) ->
  (Z.of_nat attempt + Z.of_nat (S r) = mr)%Z -> (attempt <= 34)%nat ->
  request_loop send mr attempt (S r) sleeps
    = if (attempt + r <=? 34)%nat
      then (sleeps ++ map (fun k => Z.pow 2 (Z.of_nat k)) (seq attempt r), Ok None)
      else (sleeps ++ map (fun k => Z.pow 2 (Z.of_nat k)) (seq attempt (34 - attempt)),
            Raised).
Proof.
  revert attempt sleeps; induction r as [|r IH]; intros attempt sleeps Hs Hm H34.
  - simpl; rewrite app_nil_r.
    replace (Z.of_nat attempt <? mr - 1)%Z with false by (symmetry; apply Z.ltb_ge; lia).
    destruct (attempt + 0 <=? 34)%nat eqn:Hb.
    + destruct (Hs attempt) as [E|E]; rewrite E; reflexivity.
    + apply Nat.leb_gt in Hb; lia.
  - rewrite request_loop_failure_step by (auto; lia).
    destruct (attempt <=? 33)%nat eqn:Ha.
    + apply Nat.leb_le in Ha.
      rewrite (IH (S attempt)) by (auto; lia).
      replace (S attempt + r <=? 34)%nat with (attempt + S r <=? 34)%nat
        by (f_equal; lia).
      replace (34 - attempt)%nat with (S (34 - S attempt)) by lia.
      destruct (attempt + S r <=? 34)%nat; cbn [seq map]; rewrite <- app_assoc; reflexivity.
    + apply Nat.leb_gt in Ha.
      replace (attempt + S r <=? 34)%nat with false by (symmetry; apply Nat.leb_gt; lia).
      replace (34 - attempt)%nat with 0%nat by lia; cbn [seq map]; rewrite app_nil_r;
        reflexivity.
Qed.

(** When every request times out or fails, [_make_spotify_request] with
    [max_retries = n >= 1] sleeps 1, 2, 4, ... seconds between attempts
    ([2 ** attempt] after each attempt but the last) and returns [None] as
    long as [n <= 35]; from [n = 36] on, the backoff [2 ** 34] is more than
    [time.sleep] takes, and its [OverflowError] escapes after the sleeps
    [2 ** 0 .. 2 ** 33]. *)
Theorem failures_backoff send n :
  (forall a, send a = Timeout \/ send a = RequestError) -> (1 <= n)%nat ->
  make_spotify_request send (Z.of_nat n)
    = if (n <=? 35)%nat
      then (map (fun k => Z.pow 2 (Z.of_nat k)) (seq 0 (n - 1)), Ok None)
      else (map (fun k => Z.pow 2 (Z.of_nat k)) (seq 0 34), Raised).
Proof.
  intros Hs Hn; unfold make_spotify_request; rewrite Nat2Z.id.
  destruct n as [|r]; [lia|].
  rewrite (request_loop_failures send _ 0 r [] Hs) by lia.
  replace (S r - 1)%nat with r by lia.
  replace (S r <=? 35)%nat with (0 + r <=? 34)%nat by reflexivity.
  reflexivity.
Qed.

Lemma failures_backoff_witness :
  make_spotify_request (fun a => if Nat.even a then Timeout else RequestError) 3
    = ([1; 2]%Z, Ok None)
  /\ make_spotify_request (fun _ => Timeout) 36
    = (map (fun k => Z.pow 2 (Z.of_nat k)) (seq 0 34), Raised).
Proof.
  split.
  - apply (failures_backoff (fun a => if Nat.even a then Timeout else RequestError) 3).
    + intros a; destruct (Nat.even a); [left|right]; reflexivity.
    + lia.
  - apply (failures_backoff (fun _ => Timeout) 36); [intros; left; reflexivity|lia].
Defined.




End RequestFacts.

(** ** Facts about the tag step and the Spotify fallback of the engine *)
Module EngineHelperFacts.
Import Engine EngineHelpers EngineFacts.
Local Open Scope string_scope.

Lemma first_admissible_spec sa ts t :
  first_admissible sa ts = Some t -> In t ts /\ admissible sa t.
Proof.
  induction ts as [|t0 ts IH]; simpl; [discriminate|].
  destruct (truthy_str (t_id t0)) eqn:Ht; simpl.
  - destruct (no_seed_artist sa t0) eqn:Hn.
    + intros [= <-]; split; [left; reflexivity|split; assumption].
    + intros H; destruct (IH H) as [Hi Ha]; split; [right; exact Hi|exact Ha].
  - intros H; destruct (IH H) as [Hi Ha]; split; [right; exact Hi|exact Ha].
Qed.

Lemma genre_artist_tracks_adm search sa name names acc out :
  Forall (admissible sa) acc ->
  genre_artist_tracks search sa name names acc = Ok out -> Forall (admissible sa) out.
Proof.
  revert acc; induction names as [|n ns IH]; simpl; intros acc Hacc.
  - intros H; injection H as <-; exact Hacc.
  - destruct (negb (truthy_str n)); [exact (IH _ Hacc)|].
    destruct (search _ _) as [sts|]; [|discriminate].
    destruct (first_admissible sa sts) as [t|] eqn:Hf; [|exact (IH _ Hacc)].
    apply IH; apply Forall_app; split; [exact Hacc|].
    constructor; [exact (proj2 (first_admissible_spec _ _ _ Hf))|constructor].
Qed.

Lemma process_genre_adm as_completed tag_top_artists lastfm_top_tracks search sa expand tag :
  (forall A l, Permutation (as_completed A l) l) ->
  Forall (admissible sa)
    (process_genre as_completed tag_top_artists lastfm_top_tracks search sa expand tag).
Proof.
  intros Hp; unfold process_genre.
  destruct (tag_top_artists tag _) as [top|]; [|constructor].
  apply Forall_forall; intros t Hin.
  apply in_concat in Hin as [l [Hl Ht]].
  apply (Permutation_in _ (Hp _ _)) in Hl.
  apply in_map_iff in Hl as [name [<- _]].
  unfold get_tracks_from_genre_artist in Ht.
  destruct (negb (truthy_str name)); [contradiction|].
  destruct (genre_artist_tracks search sa name _ []) as [ts|] eqn:E; [|contradiction].
  apply (genre_artist_tracks_adm _ _ _ _ _ _ (Forall_nil _)) in E.
  rewrite Forall_forall in E; exact (E _ Ht).
Qed.

Lemma take_new_capped_in limit seen recs ts t :
  In t (snd (take_new_capped limit seen recs ts)) -> In t recs \/ In t ts.
Proof.
  revert seen recs; induction ts as [|t0 ts IH]; simpl; intros seen recs H; [left; exact H|].
  destruct (truthy_str (t_id t0) && negb (mem (t_id t0) seen)).
  - destruct (limit <=? Z.of_nat (length (recs ++ [t0])))%Z.
    + simpl in H; apply in_app_or in H as [H|[<-|[]]]; [left; exact H|right; left; reflexivity].
    + destruct (IH _ _ H) as [H'|H']; [|right; right; exact H'].
      apply in_app_or in H' as [H'|[<-|[]]]; [left; exact H'|right; left; reflexivity].
  - destruct (IH _ _ H) as [H'|H']; [left; exact H'|right; right; exact H'].
Qed.

Lemma merge_batches_capped_in limit seen recs bs t :
  In t (snd (merge_batches_capped limit seen recs bs)) ->
  In t recs \/ exists b, In b bs /\ In t b.
Proof.
  revert seen recs; induction bs as [|b bs IH]; simpl; intros seen recs H; [left; exact H|].
  destruct (take_new_capped limit seen recs b) as [s' r'] eqn:E.
  assert (Hr : forall x, In x r' -> In x recs \/ In x b).
  { intros x Hx; apply (take_new_capped_in limit seen recs b); rewrite E; exact Hx. }
  destruct (limit <=? Z.of_nat (length r'))%Z.
  - destruct (Hr _ H) as [H'|H']; [left; exact H'|right; exists b; split; [left|]; auto].
  - destruct (IH _ _ H) as [H'|[b' [Hb' Ht']]].
    + destruct (Hr _ H') as [H''|H'']; [left; exact H''|right; exists b; split; [left|]; auto].
    + right; exists b'; split; [right|]; auto.
Qed.

Lemma take_new_capped_len limit seen recs ts :
  (Z.of_nat (length recs) < Z.max 1 limit)%Z ->
  (Z.of_nat (length (snd (take_new_capped limit seen recs ts))) <= Z.max 1 limit)%Z.
Proof.
  revert seen recs; induction ts as [|t ts IH]; simpl; intros seen recs H; [lia|].
  destruct (truthy_str (t_id t) && negb (mem (t_id t) seen)); [|apply IH; exact H].
  rewrite length_app; simpl.
  destruct (limit <=? Z.of_nat (length recs + 1))%Z eqn:E; simpl; [rewrite length_app; simpl; lia|].
  apply Z.leb_gt in E; apply IH; rewrite length_app; simpl; lia.
Qed.

Lemma merge_batches_capped_len limit seen recs bs :
  (Z.of_nat (length recs) < Z.max 1 limit)%Z ->
  (Z.of_nat (length (snd (merge_batches_capped limit seen recs bs))) <= Z.max 1 limit)%Z.
Proof.
  revert seen recs; induction bs as [|b bs IH]; simpl; intros seen recs H; [lia|].
  pose proof (take_new_capped_len limit seen recs b H) as Hb.
  destruct (take_new_capped limit seen recs b) as [s' r']; simpl in Hb.
  destruct (limit <=? Z.of_nat (length r'))%Z eqn:E; [exact Hb|].
  apply Z.leb_gt in E; apply IH; lia.
Qed.

(** [_get_genre_based_recommendations]: when [as_completed] yields each
    future once, the tracks it returns have distinct truthy ids and no seed
    artist, and there are at most [max(1, limit)] of them (the cap is checked
    only after a track is appended, so a [limit <= 0] still lets one through). *)
Theorem genre_based_sound as_completed set_list artist_tag_names tag_top_artists
    lastfm_top_tracks search sa expand artist_names limit recs :
  (forall A l, Permutation (as_completed A l) l) ->
  genre_based_recommendations as_completed set_list artist_tag_names tag_top_artists
    lastfm_top_tracks search sa expand artist_names limit = Ok recs ->
  ids_nodup recs /\ Forall (admissible sa) recs
  /\ (Z.of_nat (length recs) <= Z.max 1 limit)%Z.
Proof.
  intros Hp; unfold genre_based_recommendations.
  destruct (collect_tags _ _ _) as [all_tags|]; [|discriminate].
  destruct (firstn _ (set_list all_tags)) as [|tag tags] eqn:Ht.
  - intros [= <-]; split; [constructor|split; [constructor|simpl; lia]].
  - rewrite <- Ht; intros [= <-]; split; [|split].
    + eapply inv_nodup; apply merge_batches_capped_inv, inv_nil.
    + apply Forall_forall; intros t Hin.
      destruct (merge_batches_capped_in _ _ _ _ _ Hin) as [[]|[b [Hb Htb]]].
      apply (Permutation_in _ (Hp _ _)) in Hb.
      apply in_map_iff in Hb as [tag' [<- _]].
      pose proof (process_genre_adm as_completed tag_top_artists lastfm_top_tracks
                    search sa expand tag' Hp) as Hf.
      rewrite Forall_forall in Hf; exact (Hf _ Htb).
    + apply merge_batches_capped_len; simpl; lia.
Qed.

Lemma fallback_take_ok sa limit seen recs ts :
  inv seen recs -> Forall (admissible sa) recs -> (Z.of_nat (length recs) < limit)%Z ->
  inv (fst (fallback_take sa limit seen recs ts)) (snd (fallback_take sa limit seen recs ts))
  /\ Forall (admissible sa) (snd (fallback_take sa limit seen recs ts))
  /\ (Z.of_nat (length (snd (fallback_take sa limit seen recs ts))) <= limit)%Z.
Proof.
  revert seen recs; induction ts as [|t ts IH]; simpl; intros seen recs Hi Hf Hl;
    [split; [exact Hi|split; [exact Hf|lia]]|].
  destruct (truthy_str (t_id t) && negb (mem (t_id t) seen) && no_seed_artist sa t) eqn:Hc;
    [|apply IH; assumption].
  apply andb_true_iff in Hc as [Hc Hn]; apply andb_true_iff in Hc as [Ht Hm].
  apply negb_true_iff in Hm.
  assert (Hi' : inv (seen ++ [t_id t]) (recs ++ [t])) by (apply inv_snoc with (t := t); auto).
  assert (Hf' : Forall (admissible sa) (recs ++ [t])).
  { apply Forall_app; split; [exact Hf|constructor; [split; assumption|constructor]]. }
  destruct (limit <=? Z.of_nat (length (recs ++ [t])))%Z eqn:E.
  - simpl; split; [exact Hi'|split; [exact Hf'|rewrite length_app; simpl; lia]].
  - apply Z.leb_gt in E; apply IH; assumption.
Qed.

Lemma fallback_genres_ok search sa expand limit genres seen recs :
  inv seen recs -> Forall (admissible sa) recs ->
  (Z.of_nat (length recs) <= Z.max 0 limit)%Z ->
  let out := fallback_genres search sa expand limit genres seen recs in
  ids_nodup out /\ Forall (admissible sa) out /\ (Z.of_nat (length out) <= Z.max 0 limit)%Z.
Proof.
  revert seen recs; induction genres as [|g gs IH]; simpl; intros seen recs Hi Hf Hl.
  - split; [apply (inv_nodup seen); exact Hi|split; assumption].
  - destruct (limit <=? Z.of_nat (length recs))%Z eqn:E.
    + split; [apply (inv_nodup seen); exact Hi|split; assumption].
    + apply Z.leb_gt in E.
      destruct (search (genre_query g) _) as [ts|]; [|apply IH; assumption].
      destruct (fallback_take_ok sa limit seen recs ts Hi Hf E) as [Hi' [Hf' Hl']].
      destruct (fallback_take sa limit seen recs ts) as [s' r']; simpl in *.
      apply IH; [exact Hi'|exact Hf'|lia].
Qed.

(** [_get_spotify_fallback_recommendations] never returns a seed artist's
    track, never repeats an id, keeps only truthy ids, and returns at most
    [limit] tracks (none when [limit <= 0]), whatever Spotify answers. *)
Theorem spotify_fallback_sound set_list artist_genres search sa expand limit :
  let recs := spotify_fallback_recommendations set_list artist_genres search sa expand limit in
  ids_nodup recs /\ Forall (admissible sa) recs /\ (Z.of_nat (length recs) <= Z.max 0 limit)%Z.
Proof.
  unfold spotify_fallback_recommendations; apply fallback_genres_ok;
    [apply inv_nil|constructor|simpl; lia].
Qed.

Lemma genre_based_sound_witness :
  let rec_of := genre_based_recommendations (fun _ l => l) (fun l => l)
      (fun _ _ => Ok ["rock"; "seen live"]) (fun _ _ => Ok ["Band"])
      (fun _ _ => ["s1"; "s2"])
      (fun q _ => Ok [mk_track q ["band"] None None]) ["seed"] false ["Seed Artist"] in
  rec_of 0%Z = Ok [mk_track ("s1" ++ " " ++ "Band") ["band"] None None]
  /\ (Z.of_nat (length [mk_track ("s1" ++ " " ++ "Band") ["band"] None None])
        <= Z.max 1 0)%Z.
Proof.
  intros rec_of; split; [vm_compute; reflexivity|].
  refine (proj2 (proj2 (genre_based_sound (fun _ l => l) (fun l => l)
      (fun _ _ => Ok ["rock"; "seen live"]) (fun _ _ => Ok ["Band"])
      (fun _ _ => ["s1"; "s2"])
      (fun q _ => Ok [mk_track q ["band"] None None]) ["seed"] false ["Seed Artist"] 0%Z
      _ _ _)));
    [intros A l; apply Permutation_refl|vm_compute; reflexivity].
Defined.

End EngineHelperFacts.


Module PyFacts.
Import Py.

(** [str.lower()] on non-ASCII text: full case mapping ([Ö] to [ö], [İ] to
    [i] followed by U+0307) and the final-sigma rule ([Σ] at the end of a
    word becomes [ς], elsewhere [σ]). *)
Lemma py_lower_unicode :
  py_lower "BJÖRK"%string = "björk"%string
  /\ py_lower "ΟΔΟΣ ΣΑ"%string = "οδος σα"%string
  /\ py_lower "İ"%string = "i̇"%string.
Proof. vm_compute; repeat split. Qed.

(** [str.strip()] removes Unicode whitespace: here U+00A0 before and U+3000
    after the word, and U+001C before it. *)
Lemma py_strip_unicode :
  py_strip " jazz　"%string = "jazz"%string
  /\ py_strip (String (Ascii.ascii_of_nat 28) "pop") = "pop"%string.
Proof. vm_compute; split; reflexivity. Qed.

End PyFacts.
